(** * libinput-gestures-qt: the configuration engine and the key-combo translator

    A shallow embedding of the text-processing core of
    [libinput_gestures_qt/main.py]: [read_config], [write_config],
    [fix_config], [resub_config], [find_key_combo],
    [GesturesApp.prepare_config_for_displaying], [GesturesApp.sort_config],
    [GesturesApp.delete_entry] and [EditGestures.save_changes], together with
    the three module-level dictionaries.

    Modelling conventions.
    - A Python [str] is a [string]; a character is an [ascii], read as the
      code point 0..255.  The [str] methods below are given with the behaviour
      CPython has on that range.
    - A Python exception is a value of [exception]; code that can raise
      returns a [result].
    - The configuration file is a [store]: [None] when the file is absent,
      [Some text] otherwise. *)

From Stdlib Require Import ZArith Ascii String List DecimalString Lia Sorted.
From stdpp Require Import gmap strings list.

(** ** Exceptions *)

Inductive exception : Type :=
| IndexError
| KeyError.

Inductive result (A : Type) : Type :=
| Ok (a : A)
| Raise (e : exception).

Arguments Ok {A} a.
Arguments Raise {A} e.

#[global] Instance result_ret : MRet result := fun _ a => Ok a.

#[global] Instance result_bind : MBind result := fun _ _ f m =>
  match m with
  | Ok a => f a
  | Raise e => Raise e
  end.

#[global] Instance result_fmap : FMap result := fun _ _ f m =>
  match m with
  | Ok a => Ok (f a)
  | Raise e => Raise e
  end.

(** ** Python built-ins *)

Module Py.

Definition TAB : ascii := "009"%char.
Definition LF : ascii := "010"%char.
Definition CR : ascii := "013"%char.
Definition SPACE : ascii := " "%char.
Definition QUOTE : ascii := "034"%char.
Definition PLUS : ascii := "+"%char.

(** The one-character string [c]. *)
Definition chr (c : ascii) : string := String c EmptyString.

(** [str.isspace] on a single character below U+0100. *)
Definition isspace (c : ascii) : bool :=
  let n := nat_of_ascii c in
  ((9 <=? n) && (n <=? 13)) || ((28 <=? n) && (n <=? 32))
  || (n =? 133) || (n =? 160).

(** [str.lower] on a single character below U+0100: the letters A-Z and the
    Latin-1 capitals U+00C0..U+00DE (U+00D7, the multiplication sign, is not
    a letter). *)
Definition lower_char (c : ascii) : ascii :=
  let n := nat_of_ascii c in
  if ((65 <=? n) && (n <=? 90))
     || ((192 <=? n) && (n <=? 222) && negb (n =? 215))
  then ascii_of_nat (n + 32) else c.

Fixpoint lower (s : string) : string :=
  match s with
  | EmptyString => EmptyString
  | String c s' => String (lower_char c) (lower s')
  end.

(** [len(s) > 0], the truth value of a [str]. *)
Definition truthy (s : string) : bool :=
  match s with
  | EmptyString => false
  | String _ _ => true
  end.

(** [s.startswith(p)]. *)
Fixpoint startswith (p s : string) : bool :=
  match p, s with
  | EmptyString, _ => true
  | String _ _, EmptyString => false
  | String a p', String b s' => bool_decide (a = b) && startswith p' s'
  end.

(** [s.endswith(p)]. *)
Fixpoint endswith (p s : string) : bool :=
  bool_decide (s = p) ||
  match s with
  | EmptyString => false
  | String _ s' => endswith p s'
  end.

(** [p in s]. *)
Fixpoint contains (p s : string) : bool :=
  startswith p s ||
  match s with
  | EmptyString => false
  | String _ s' => contains p s'
  end.

(** [s.replace(c, r)] for a one-character pattern [c]. *)
Fixpoint replace (c : ascii) (r : string) (s : string) : string :=
  match s with
  | EmptyString => EmptyString
  | String a s' =>
      if bool_decide (a = c) then r +:+ replace c r s'
      else String a (replace c r s')
  end.

(** [sep.join(l)]. *)
Fixpoint join (sep : string) (l : list string) : string :=
  match l with
  | [] => EmptyString
  | [x] => x
  | x :: l' => x +:+ sep +:+ join sep l'
  end.

(** Iterating over a [str] yields its characters as one-character strings,
    so [sep.join(s)] with [s] a [str] is [join sep (iter s)]. *)
Fixpoint iter (s : string) : list string :=
  match s with
  | EmptyString => []
  | String c s' => chr c :: iter s'
  end.

(** Put [c] in front of the first element of [l]. *)
Definition cons_head (c : ascii) (l : list string) : list string :=
  match l with
  | [] => [chr c]
  | t :: ts => String c t :: ts
  end.

(** [s.split(c)] for a one-character separator: never empty. *)
Fixpoint split_on (c : ascii) (s : string) : list string :=
  match s with
  | EmptyString => [EmptyString]
  | String a s' =>
      if bool_decide (a = c) then EmptyString :: split_on c s'
      else cons_head a (split_on c s')
  end.

(** [s.split()]: the maximal runs of non-whitespace characters.  [cur] is
    the token being read ([EmptyString] between tokens). *)
Fixpoint split_go (cur : string) (s : string) : list string :=
  match s with
  | EmptyString => if truthy cur then [cur] else []
  | String a s' =>
      if isspace a
      then (if truthy cur then cur :: split_go EmptyString s'
            else split_go EmptyString s')
      else split_go (cur +:+ chr a) s'
  end.

Definition split (s : string) : list string := split_go EmptyString s.

(** [l[i]] for [i >= 0]. *)
Definition getitem {A} (l : list A) (i : nat) : result A :=
  match l !! i with
  | Some x => Ok x
  | None => Raise IndexError
  end.

(** [l[-1]]. *)
Definition getitem_last {A} (l : list A) : result A :=
  match last l with
  | Some x => Ok x
  | None => Raise IndexError
  end.

(** [l[i:]]. *)
Definition slice_from {A} (i : nat) (l : list A) : list A := drop i l.

(** [d[k]] on a [dict]. *)
Definition dict_getitem (d : gmap string string) (k : string) : result string :=
  match d !! k with
  | Some v => Ok v
  | None => Raise KeyError
  end.

(** [k in d] on a [dict]. *)
Definition dict_contains (d : gmap string string) (k : string) : bool :=
  bool_decide (is_Some (d !! k)).

(** [str(n)] for an [int]. *)
Definition str (n : Z) : string := NilZero.string_of_int (Z.to_int n).

(** Universal-newlines decoding of a file opened in text mode: a carriage
    return, alone or followed by a line feed, is read as one line feed. *)
Fixpoint universal_newlines (s : string) : string :=
  match s with
  | EmptyString => EmptyString
  | String a s' =>
      if bool_decide (a = CR) then
        match s' with
        | String b _ =>
            if bool_decide (b = LF) then universal_newlines s'
            else String LF (universal_newlines s')
        | EmptyString => chr LF
        end
      else String a (universal_newlines s')
  end.

(** [f.readlines()] on the decoded text: every line keeps its line feed;
    only the last line can lack one. *)
Fixpoint readlines (s : string) : list string :=
  match s with
  | EmptyString => []
  | String a s' =>
      if bool_decide (a = LF) then chr LF :: readlines s'
      else cons_head a (readlines s')
  end.

(** [re.sub('(c)+', r, s)] for a character [c]: every maximal run of [c] is
    replaced by [r].  The replacement is emitted at the last character of
    the run. *)
Fixpoint re_sub_plus (c : ascii) (r : string) (s : string) : string :=
  match s with
  | EmptyString => EmptyString
  | String a s' =>
      if bool_decide (a = c) then
        match s' with
        | String b _ =>
            if bool_decide (b = c) then re_sub_plus c r s'
            else r +:+ re_sub_plus c r s'
        | EmptyString => r
        end
      else String a (re_sub_plus c r s')
  end.

(** [re.findall('"(.*?)"', s)].  A match starts at a double quote and ends
    at the next one, provided no line feed lies between them ([.] does not
    match a line feed); the scan resumes behind the closing quote.  [cur] is
    [Some t] when a quote was opened and [t] was read since.  An opening
    quote that meets a line feed or the end of the text first matches
    nothing, and no other quote lies in the text it skipped. *)
Fixpoint findall_quoted_go (cur : option string) (s : string) : list string :=
  match s with
  | EmptyString => []
  | String a s' =>
      match cur with
      | None =>
          if bool_decide (a = QUOTE) then findall_quoted_go (Some EmptyString) s'
          else findall_quoted_go None s'
      | Some t =>
          if bool_decide (a = QUOTE) then t :: findall_quoted_go None s'
          else if bool_decide (a = LF) then findall_quoted_go None s'
          else findall_quoted_go (Some (t +:+ chr a)) s'
      end
  end.

Definition findall_quoted (s : string) : list string :=
  findall_quoted_go None s.

(** Lexicographic comparison of two [str] by code point, [s < t]. *)
Definition str_lt (s t : string) : bool :=
  match String.compare s t with
  | Lt => true
  | _ => false
  end.

(** [sorted(l)] with [lt] as the element comparison: a stable insertion
    sort; a new element goes behind the elements it is not smaller than. *)
Section Sorted.
Context {A : Type} (lt : A → A → bool).

Fixpoint insert_sorted (x : A) (l : list A) : list A :=
  match l with
  | [] => [x]
  | y :: l' => if lt x y then x :: y :: l' else y :: insert_sorted x l'
  end.

Definition sorted (l : list A) : list A :=
  fold_left (fun acc x => insert_sorted x acc) l [].
End Sorted.

End Py.

Import Py.

(** ** The module-level dictionaries *)

Definition actions_mapping : gmap string string :=
  list_to_map [
    ("Swipe Up", "gesture swipe up");
    ("Swipe Down", "gesture swipe down");
    ("Swipe Left", "gesture swipe left");
    ("Swipe LeftUp", "gesture swipe left_up");
    ("Swipe LeftDown", "gesture swipe  left_down");
    ("Swipe Right", "gesture swipe right");
    ("Swipe RightUp", "gesture swipe right_up");
    ("Swipe RightDown", "gesture swipe right_down");
    ("Pinch In", "gesture pinch in");
    ("Pinch Out", "gesture pinch out");
    ("Pinch Clockwise", "gesture pinch clockwise");
    ("Pinch Anticlockwise", "gesture pinch anticlockwise")
  ].

Definition reversed_mapping : gmap string string :=
  list_to_map [
    ("gesture swipe up", "Swipe Up");
    ("gesture swipe down", "Swipe Down");
    ("gesture swipe left", "Swipe Left");
    ("gesture swipe left_up", "Swipe LeftUp");
    ("gesture swipe left_down", "Swipe LeftDown");
    ("gesture swipe right", "Swipe Right");
    ("gesture swipe right_up", "Swipe RightUp");
    ("gesture swipe right_down", "Swipe RightDown");
    ("gesture pinch in", "Pinch In");
    ("gesture pinch out", "Pinch Out");
    ("gesture pinch clockwise", "Pinch Clockwise");
    ("gesture pinch anticlockwise", "Pinch Anticlockwise")
  ].

Definition keys_mapping : gmap string string :=
  list_to_map [
    ("meta", "super");
    ("pgdown", "Page_Down");
    ("pgup", "Page_Up");
    ("right", "Right");
    ("left", "Left");
    ("up", "Up");
    ("down", "Down");
    ("f1", "F1");
    ("f2", "F2");
    ("f3", "F3");
    ("f4", "F4");
    ("f5", "F5");
    ("f6", "F6");
    ("f7", "F7");
    ("f8", "F8");
    ("f9", "F9");
    ("f10", "F10");
    ("f11", "F11");
    ("f12", "F12")
  ].

(** The twelve display labels and the twelve canonical phrases, in the order
    of the source. *)
Definition gesture_labels : list string :=
  [ "Swipe Up"; "Swipe Down"; "Swipe Left"; "Swipe LeftUp"; "Swipe LeftDown";
    "Swipe Right"; "Swipe RightUp"; "Swipe RightDown"; "Pinch In"; "Pinch Out";
    "Pinch Clockwise"; "Pinch Anticlockwise" ].

Definition gesture_phrases : list string :=
  [ "gesture swipe up"; "gesture swipe down"; "gesture swipe left";
    "gesture swipe left_up"; "gesture swipe left_down"; "gesture swipe right";
    "gesture swipe right_up"; "gesture swipe right_down"; "gesture pinch in";
    "gesture pinch out"; "gesture pinch clockwise";
    "gesture pinch anticlockwise" ].

(** ** The configuration file *)

(** [None]: there is no file at [CONFIG_LOCATION]; [Some text]: its content. *)
Definition store : Type := option string.

(** [read_config].  For an absent file the source returns the empty [str],
    which every caller iterates or joins exactly like an empty list. *)
Definition read_config (st : store) : list string :=
  match st with
  | Some text => readlines (universal_newlines text)
  | None => []
  end.

(** [write_config]: the file now holds [''.join(new_conf)]. *)
Definition write_config (new_conf : list string) : store :=
  Some (join EmptyString new_conf).

(** ** [fix_config] *)

(** The body of the loop of [fix_config]: [fixed_conf] after [line]. *)
Definition fix_config_body (line : string) (fixed_conf : list string)
  : result (list string) :=
  if startswith "#" line || bool_decide (line = chr LF) then
    Ok (fixed_conf ++ [line])
  else
    let splitted := split (replace TAB " " line) in
    s0 ← getitem splitted 0;
    if bool_decide (s0 ∈ ["gesture"; "device"; "swipe_threshold"]) then
      if bool_decide (s0 = "gesture") then
        s4 ← getitem splitted 4;
        if bool_decide (s4 = "xdotool") then
          s5 ← getitem splitted 5;
          if bool_decide (s5 = "key") && bool_decide (length splitted = 7)
          then Ok (fixed_conf ++ [line])
          else Ok fixed_conf
        else if contains "qdbus" s4 then
          sl ← getitem_last splitted;
          if endswith (chr QUOTE) sl then Ok (fixed_conf ++ [line])
          else Ok fixed_conf
        else Ok (fixed_conf ++ [line])
      else
        if bool_decide (length splitted = 2) then Ok (fixed_conf ++ [line])
        else Ok fixed_conf
    else Ok fixed_conf.

Fixpoint fix_config_loop (conf : list string) (fixed_conf : list string)
  : result (list string) :=
  match conf with
  | [] => Ok fixed_conf
  | line :: conf' =>
      fixed_conf' ← fix_config_body line fixed_conf;
      fix_config_loop conf' fixed_conf'
  end.

(** [fix_config]: the new file, or the exception that left it untouched. *)
Definition fix_config (st : store) : result store :=
  fixed_conf ← fix_config_loop (read_config st) [];
  Ok (write_config (iter (join EmptyString fixed_conf))).

(** ** [resub_config] *)

Definition resub_config (st : store) : store :=
  let conf := join EmptyString (read_config st) in
  let conf := re_sub_plus TAB " " conf in
  let conf := replace TAB " " conf in
  let conf := re_sub_plus SPACE " " conf in
  write_config (iter conf).

(** ** [find_key_combo] *)

Definition find_key_combo_body (qt_key : string) (xdotool_key_combo : list string)
  : result (list string) :=
  let lowered_key := lower qt_key in
  if dict_contains keys_mapping lowered_key then
    v ← dict_getitem keys_mapping lowered_key;
    Ok (xdotool_key_combo ++ [v])
  else Ok (xdotool_key_combo ++ [lowered_key]).

Fixpoint find_key_combo_loop (keys : list string) (xdotool_key_combo : list string)
  : result (list string) :=
  match keys with
  | [] => Ok xdotool_key_combo
  | qt_key :: keys' =>
      acc ← find_key_combo_body qt_key xdotool_key_combo;
      find_key_combo_loop keys' acc
  end.

Definition find_key_combo (qt_key_combo : string) : result string :=
  xdotool_key_combo ← find_key_combo_loop (split_on PLUS qt_key_combo) [];
  Ok (join "+" xdotool_key_combo).

(** ** [GesturesApp.prepare_config_for_displaying] and [GesturesApp.sort_config] *)

(** The five parallel lists the main window keeps. *)
Record display : Type := Display {
  gestures : list string;
  fingers : list string;
  shortcuts : list string;
  buttons : list string;
  actions : list string
}.

Definition empty_display : display := Display [] [] [] [] [].

Definition append_gesture (x : string) (d : display) : display :=
  Display (gestures d ++ [x]) (fingers d) (shortcuts d) (buttons d) (actions d).
Definition append_finger (x : string) (d : display) : display :=
  Display (gestures d) (fingers d ++ [x]) (shortcuts d) (buttons d) (actions d).
Definition append_shortcut (x : string) (d : display) : display :=
  Display (gestures d) (fingers d) (shortcuts d ++ [x]) (buttons d) (actions d).
Definition append_button (x : string) (d : display) : display :=
  Display (gestures d) (fingers d) (shortcuts d) (buttons d ++ [x]) (actions d).
Definition append_action (x : string) (d : display) : display :=
  Display (gestures d) (fingers d) (shortcuts d) (buttons d) (actions d ++ [x]).

(** The action column and the payload column for one gesture line: the
    [if]/[elif]/[else] on [splitted[4]]. *)
Definition decode_action (line : string) (splitted : list string) (d : display)
  : result display :=
  s4 ← getitem splitted 4;
  is_key ← (if bool_decide (s4 = "xdotool")
            then s5 ← getitem splitted 5; Ok (bool_decide (s5 = "key"))
            else Ok false);
  if (is_key : bool) then
    let d := append_action "Keyboard shortcut" d in
    s6 ← getitem splitted 6;
    Ok (append_shortcut s6 d)
  else if contains "qdbus" s4 then
    let d := append_action "Plasma action" d in
    plasma_action ← getitem (findall_quoted line) 0;
    if truthy plasma_action then Ok (append_shortcut plasma_action d)
    else
      sl ← getitem_last splitted;
      Ok (append_shortcut (replace QUOTE EmptyString sl) d)
  else
    let d := append_action "Command" d in
    Ok (append_shortcut (join " " (slice_from 4 splitted)) d).

(** The body of the loop of [prepare_config_for_displaying].  When a line
    raises, the lists are dropped with it: the caller discards them. *)
Definition prepare_body (line : string) (d : display) : result display :=
  if startswith "gesture" line then
    let splitted := split line in
    s0 ← getitem splitted 0;
    s1 ← getitem splitted 1;
    s2 ← getitem splitted 2;
    label ← dict_getitem reversed_mapping (s0 +:+ " " +:+ s1 +:+ " " +:+ s2);
    let d := append_gesture label d in
    s3 ← getitem splitted 3;
    let d := append_finger s3 d in
    d ← decode_action line splitted d;
    Ok (append_button (s0 +:+ " " +:+ s1 +:+ " " +:+ s2 +:+ " " +:+ s3) d)
  else Ok d.

Fixpoint prepare_loop (conf : list string) (d : display) : result display :=
  match conf with
  | [] => Ok d
  | line :: conf' => d' ← prepare_body line d; prepare_loop conf' d'
  end.

Definition prepare_config_for_displaying (st : store) : result display :=
  prepare_loop (read_config st) empty_display.

(** One element of [for_sorting]: [[el, (finger, shortcut, button, action)]]. *)
Definition sort_row : Type := string * (string * string * string * string).

(** Python's comparison of two sequences of [str]: the first position where
    they differ decides. *)
Fixpoint seq_lt (l1 l2 : list string) : bool :=
  match l1, l2 with
  | [], [] => false
  | [], _ :: _ => true
  | _ :: _, [] => false
  | x :: l1', y :: l2' =>
      if bool_decide (x = y) then seq_lt l1' l2' else str_lt x y
  end.

Definition row_lt (r1 r2 : sort_row) : bool :=
  let '(el1, (f1, s1, b1, a1)) := r1 in
  let '(el2, (f2, s2, b2, a2)) := r2 in
  if bool_decide (el1 = el2) then seq_lt [f1; s1; b1; a1] [f2; s2; b2; a2]
  else str_lt el1 el2.

(** The first loop of [sort_config], over [enumerate(self.gestures)]. *)
Fixpoint for_sorting_loop (d : display) (i : nat) (els : list string)
    (for_sorting : list sort_row) : result (list sort_row) :=
  match els with
  | [] => Ok for_sorting
  | el :: els' =>
      f ← getitem (fingers d) i;
      s ← getitem (shortcuts d) i;
      b ← getitem (buttons d) i;
      a ← getitem (actions d) i;
      for_sorting_loop d (S i) els' (for_sorting ++ [(el, (f, s, b, a))])
  end.

(** The second loop of [sort_config], over [sorted_conf]. *)
Definition unpack_row (d : display) (line : sort_row) : display :=
  let '(el, (f, s, b, a)) := line in
  append_action a (append_button b (append_shortcut s
    (append_finger f (append_gesture el d)))).

Definition sort_config (d : display) : result display :=
  for_sorting ← for_sorting_loop d 0 (gestures d) [];
  let sorted_conf := sorted row_lt for_sorting in
  Ok (fold_left unpack_row sorted_conf empty_display).

(** What [display_config] shows when the file parses. *)
Definition display_config (st : store) : result display :=
  d ← prepare_config_for_displaying st;
  sort_config d.

(** ** [GesturesApp.delete_entry] and [EditGestures.save_changes] *)

(** The loop both share: the lines that do not start with [key]. *)
Definition drop_matching (key : string) (conf : list string) : list string :=
  fold_left
    (fun new_conf line =>
       if negb (startswith key line) then new_conf ++ [line] else new_conf)
    conf [].

(** [delete_entry] once the user has confirmed; [name] is the accessible name
    of the button. *)
Definition delete_entry (name : string) (st : store) : store :=
  let conf := read_config st in
  let new_conf := drop_matching name conf in
  write_config new_conf.

(** The line [save_changes] appends. *)
Definition new_line (action : string) (nfingers : Z) (shortcut : string) : string :=
  action +:+ " " +:+ str nfingers +:+ " " +:+ shortcut +:+ chr LF.

(** [new_conf] at the call of [write_config] in [save_changes]. *)
Definition save_changes_new_conf (action : string) (nfingers : Z)
    (shortcut : string) (conf : list string) : list string :=
  let new_conf := drop_matching (action +:+ " " +:+ str nfingers) conf in
  new_conf ++ [new_line action nfingers shortcut].

(** [save_changes]; the file is untouched when a field is missing. *)
Definition save_changes (action : string) (nfingers : Z) (shortcut : string)
    (st : store) : store :=
  if truthy action && negb (nfingers =? 0)%Z && truthy shortcut then
    write_config (save_changes_new_conf action nfingers shortcut (read_config st))
  else st.

(** ** The specification's wording, for comparison with the code *)

(** One segment of a key combination: lower-cased, then substituted when the
    table has it. *)
Definition translate_segment (segment : string) : string :=
  default (lower segment) (keys_mapping !! lower segment).

(** Split on [+], translate every segment, re-join with [+]. *)
Definition translate (combo : string) : string :=
  join "+" (translate_segment <$> split_on PLUS combo).

(** A line carries the key [key] when [key] is a prefix of its text. *)
Definition keyed (key : string) (conf : list string) : list string :=
  filter (fun line => startswith key line = true) conf.

(** The decimal digits. *)
Definition is_digit (c : ascii) : bool :=
  let n := nat_of_ascii c in (48 <=? n) && (n <=? 57).

(** The rule of the specification for a [gesture] line, on its tokens. *)
Definition gesture_kept (tokens : list string) : Prop :=
  ∃ t4, tokens !! 4 = Some t4 ∧
    ((t4 = "xdotool" ∧ tokens !! 5 = Some "key" ∧ length tokens = 7)
     ∨ (contains "qdbus" t4 = true
        ∧ ∃ tl, last tokens = Some tl ∧ endswith (chr QUOTE) tl = true)
     ∨ (t4 ≠ "xdotool" ∧ contains "qdbus" t4 = false)).

(** ** Shapes of texts and of line sequences *)

(** [c] occurs in [s]. *)
Fixpoint occurs (c : ascii) (s : string) : bool :=
  match s with
  | EmptyString => false
  | String a s' => bool_decide (a = c) || occurs c s'
  end.

(** [c] occurs twice in a row in [s]. *)
Fixpoint doubled (c : ascii) (s : string) : bool :=
  match s with
  | EmptyString => false
  | String a s' =>
      (bool_decide (a = c) && startswith (chr c) s') || doubled c s'
  end.

(** A line that ends with its only line feed. *)
Definition terminated (l : string) : Prop :=
  ∃ body, l = body +:+ chr LF ∧ occurs LF body = false.

(** A non-empty line without a line feed: the last line of a text that does
    not end with one. *)
Definition unterminated (l : string) : Prop :=
  l ≠ EmptyString ∧ occurs LF l = false.

(** The line sequences [readlines] produces: terminated lines, then at most
    one unterminated line. *)
Fixpoint line_sequence (ls : list string) : Prop :=
  match ls with
  | [] => True
  | l :: ls' => (terminated l ∨ (unterminated l ∧ ls' = [])) ∧ line_sequence ls'
  end.

(** The three substitutions of [resub_config], on the text. *)
Definition resub (conf : string) : string :=
  re_sub_plus SPACE " " (replace TAB " " (re_sub_plus TAB " " conf)).

(** The text [resub_config] reads: the decoded file, or nothing. *)
Definition decoded (st : store) : string :=
  match st with
  | Some text => universal_newlines text
  | None => EmptyString
  end.

(** Whether the body of the loop of [fix_config] appends the line. *)
Definition fix_config_keeps (line : string) : bool :=
  match fix_config_body line [] with
  | Ok (_ :: _) => true
  | _ => false
  end.

(** Every line ends with a line feed: the text is empty or ends with one. *)
Definition terminated_lines (conf : list string) : bool :=
  forallb (endswith (chr LF)) conf.

(** When the body of the loop of [fix_config] raises on a line: the line is
    neither a comment nor the bare line feed, and it has no token at all, or
    it is a [gesture] line without token 4, or with [xdotool] as its fifth and
    last token. *)
Definition fix_config_fails (line : string) : Prop :=
  startswith "#" line = false ∧ line ≠ chr LF ∧
  (split line = []
   ∨ (split line !! 0 = Some "gesture"
      ∧ (length (split line) < 5
         ∨ (split line !! 4 = Some "xdotool" ∧ length (split line) = 5)))).

(** A text without line feed and without carriage return. *)
Definition one_line (s : string) : bool :=
  negb (occurs LF s) && negb (occurs CR s).

(** The five lists of a [display] go together when they have one length. *)
Definition balanced (d : display) : Prop :=
  length (fingers d) = length (gestures d)
  ∧ length (shortcuts d) = length (gestures d)
  ∧ length (buttons d) = length (gestures d)
  ∧ length (actions d) = length (gestures d).

(** The rows of the table: entry [i] of each list. *)
Definition rows (d : display) : list sort_row :=
  zip (gestures d)
    (zip (zip (zip (fingers d) (shortcuts d)) (buttons d)) (actions d)).

(** [r1] may stand before [r2]: [r2] is not smaller. *)
Definition row_le (r1 r2 : sort_row) : Prop := row_lt r2 r1 = false.

(** * Properties *)

(** ** Results and lists *)

Lemma bind_Ok {A B} (f : A → result B) (a : A) : Ok a ≫= f = f a.
Proof. reflexivity. Qed.

Lemma bind_Raise {A B} (f : A → result B) (e : exception) :
  Raise e ≫= f = Raise e.
Proof. reflexivity. Qed.

Lemma snoc_ne {A} (l : list A) (x : A) : l ++ [x] ≠ l.
Proof.
  intros H. apply (f_equal length) in H. rewrite length_app in H.
  simpl in H. lia.
Qed.

(** ** Strings *)

Section Strings.
Implicit Types (s t u p : string) (a b c : ascii).

Lemma app_str_nil_l s : EmptyString +:+ s = s.
Proof. reflexivity. Qed.

Lemma app_str_cons a s t : String a s +:+ t = String a (s +:+ t).
Proof. reflexivity. Qed.

Lemma app_str_nil_r s : s +:+ EmptyString = s.
Proof. induction s as [|a s IH]; [done|]. by rewrite app_str_cons, IH. Qed.

Lemma app_str_assoc s t u : (s +:+ t) +:+ u = s +:+ t +:+ u.
Proof.
  induction s as [|a s IH]; [done|]. by rewrite !app_str_cons, IH.
Qed.

Lemma startswith_app p s : startswith p (p +:+ s) = true.
Proof.
  induction p as [|a p IH]; [done|].
  rewrite app_str_cons. simpl. rewrite IH. by rewrite bool_decide_eq_true_2.
Qed.

Lemma startswith_spec p s : startswith p s = true ↔ ∃ t, s = p +:+ t.
Proof.
  split.
  - revert s. induction p as [|a p IH]; intros s H.
    + by exists s.
    + destruct s as [|b s]; [done|]. simpl in H.
      apply andb_true_iff in H as [Hab Hp]. apply bool_decide_eq_true_1 in Hab.
      destruct (IH _ Hp) as [t ->]. exists t. by subst.
  - intros [t ->]. apply startswith_app.
Qed.

Lemma join_empty_cons s (l : list string) :
  join EmptyString (s :: l) = s +:+ join EmptyString l.
Proof. destruct l; simpl; [by rewrite app_str_nil_r|done]. Qed.

Lemma join_empty_app (l1 l2 : list string) :
  join EmptyString (l1 ++ l2) = join EmptyString l1 +:+ join EmptyString l2.
Proof.
  induction l1 as [|s l1 IH]; [done|].
  rewrite <-app_comm_cons, !join_empty_cons, IH. by rewrite app_str_assoc.
Qed.

(** Joining the characters of a text gives the text back. *)
Lemma join_empty_iter s : join EmptyString (iter s) = s.
Proof.
  induction s as [|a s IH]; [done|].
  cbn [iter]. by rewrite join_empty_cons, IH.
Qed.

Lemma write_config_iter s : write_config (iter s) = Some s.
Proof. unfold write_config. by rewrite join_empty_iter. Qed.

Lemma join_empty_cons_head a (l : list string) :
  join EmptyString (cons_head a l) = String a (join EmptyString l).
Proof.
  destruct l as [|t ts]; [done|].
  unfold cons_head. by rewrite !join_empty_cons.
Qed.

(** The lines of a text, joined, are the text. *)
Lemma join_empty_readlines s : join EmptyString (readlines s) = s.
Proof.
  induction s as [|a s IH]; [done|]. cbn [readlines].
  case_bool_decide as Ha.
  - rewrite join_empty_cons, IH. by subst.
  - by rewrite join_empty_cons_head, IH.
Qed.
End Strings.

(** ** The removal loop of [delete_entry] and [save_changes] *)

Section DropMatching.
Implicit Types (key line : string) (conf : list string).

Lemma drop_matching_fold key conf (acc : list string) :
  fold_left
    (fun new_conf line =>
       if negb (startswith key line) then new_conf ++ [line] else new_conf)
    conf acc
  = acc ++ filter (fun line => startswith key line = false) conf.
Proof.
  revert acc. induction conf as [|line conf IH]; intros acc; simpl.
  - by rewrite app_nil_r.
  - rewrite IH, filter_cons.
    case_decide as H; simpl in H.
    + rewrite H; simpl. by rewrite <-app_assoc.
    + by apply not_false_is_true in H as ->.
Qed.

(** The loop is a filter on the prefix test, and nothing else. *)
Lemma drop_matching_filter key conf :
  drop_matching key conf = filter (fun line => startswith key line = false) conf.
Proof. unfold drop_matching. by rewrite drop_matching_fold. Qed.

Lemma elem_of_drop_matching key conf line :
  line ∈ drop_matching key conf ↔ line ∈ conf ∧ startswith key line = false.
Proof. rewrite drop_matching_filter, list_elem_of_filter. tauto. Qed.

Lemma keyed_drop_matching key conf : keyed key (drop_matching key conf) = [].
Proof.
  unfold keyed. rewrite drop_matching_filter.
  induction conf as [|line conf IH]; [done|].
  rewrite filter_cons. case_decide as H; [|done].
  rewrite filter_cons. rewrite decide_False; [done|]. by rewrite H.
Qed.

Lemma drop_matching_sublist key conf : drop_matching key conf `sublist_of` conf.
Proof. rewrite drop_matching_filter. apply sublist_filter. Qed.
End DropMatching.

(** ** [save_changes]: replace, then append *)

Section SaveChanges.
Implicit Types (action shortcut key line : string) (nfingers : Z).

Lemma new_line_key action nfingers shortcut :
  new_line action nfingers shortcut
  = (action +:+ " " +:+ str nfingers) +:+ " " +:+ shortcut +:+ chr LF.
Proof. unfold new_line. by rewrite !app_str_assoc. Qed.

Lemma app_str_chr_inj (s t : string) (c : ascii) :
  s +:+ chr c = t +:+ chr c → s = t.
Proof.
  revert t. induction s as [|a s IH]; intros [|b t] H; [done|..].
  - destruct t; discriminate H.
  - destruct s; discriminate H.
  - rewrite !app_str_cons in H. injection H as -> H. f_equal. by apply IH.
Qed.

Lemma new_line_inj action nfingers shortcut1 shortcut2 :
  new_line action nfingers shortcut1 = new_line action nfingers shortcut2 →
  shortcut1 = shortcut2.
Proof.
  unfold new_line. intros H.
  do 4 apply (inj (String.app _)) in H. by apply app_str_chr_inj in H.
Qed.

Lemma truthy_ne (s : string) : s ≠ EmptyString → truthy s = true.
Proof. by destruct s. Qed.

(** With the three fields filled in, [save_changes] writes [new_conf]. *)
Lemma save_changes_writes action nfingers shortcut (st : store) :
  action ≠ EmptyString → nfingers ≠ 0%Z → shortcut ≠ EmptyString →
  save_changes action nfingers shortcut st
  = write_config
      (save_changes_new_conf action nfingers shortcut (read_config st)).
Proof.
  intros Ha Hn Hs. unfold save_changes.
  rewrite !truthy_ne by done.
  by apply Z.eqb_neq in Hn as ->.
Qed.

Lemma keyed_new_conf action nfingers shortcut (conf : list string) :
  keyed (action +:+ " " +:+ str nfingers)
    (save_changes_new_conf action nfingers shortcut conf)
  = [new_line action nfingers shortcut].
Proof.
  unfold save_changes_new_conf, keyed.
  rewrite filter_app. fold (keyed (action +:+ " " +:+ str nfingers)
    (drop_matching (action +:+ " " +:+ str nfingers) conf)).
  rewrite keyed_drop_matching, filter_cons, filter_nil.
  rewrite decide_True; [done|].
  rewrite new_line_key. apply startswith_app.
Qed.
End SaveChanges.

(** The line sequence [save_changes] hands to [write_config] holds exactly
    one line that starts with ["<action> <fingers>"], the line just appended,
    which is its last line; so does the one a second [save_changes] with the
    same key hands over, and the line of the first payload is not in it. *)
Lemma save_changes_writes_one_keyed_line
    (st : store) (action : string) (nfingers : Z) (shortcut1 shortcut2 : string)
    (Haction : action ≠ EmptyString) (Hfingers : nfingers ≠ 0%Z)
    (Hshortcut1 : shortcut1 ≠ EmptyString) (Hshortcut2 : shortcut2 ≠ EmptyString)
    (Hdiff : shortcut1 ≠ shortcut2) :
  let key := action +:+ " " +:+ str nfingers in
  let conf1 := save_changes_new_conf action nfingers shortcut1 (read_config st) in
  let st1 := save_changes action nfingers shortcut1 st in
  let conf2 := save_changes_new_conf action nfingers shortcut2 (read_config st1) in
  let st2 := save_changes action nfingers shortcut2 st1 in
  (st1 = write_config conf1
   ∧ keyed key conf1 = [new_line action nfingers shortcut1]
   ∧ last conf1 = Some (new_line action nfingers shortcut1))
  ∧ (st2 = write_config conf2
     ∧ keyed key conf2 = [new_line action nfingers shortcut2]
     ∧ last conf2 = Some (new_line action nfingers shortcut2)
     ∧ new_line action nfingers shortcut1 ∉ conf2).
Proof.
  intros key conf1 st1 conf2 st2. split; [|split; [|split; [|split]]].
  - split; [by apply save_changes_writes|]. split; [apply keyed_new_conf|].
    apply last_snoc.
  - by apply save_changes_writes.
  - apply keyed_new_conf.
  - apply last_snoc.
  - unfold conf2, save_changes_new_conf.
    rewrite elem_of_app, elem_of_drop_matching, list_elem_of_singleton.
    intros [[_ Hpre]|Heq].
    + rewrite new_line_key, startswith_app in Hpre. discriminate Hpre.
    + by apply new_line_inj in Heq.
Qed.

(** C2. On a file whose last line has no line feed, [save_changes] does not
    leave one line with the key.  The new line is written right behind the
    last line: read again, the file has no line that starts with the key, the
    binding being the tail of the line [device all...].  A second
    [save_changes] with the same key and another payload then leaves the first
    payload in the file, in that glued line, beside the line of the second
    payload.  The source ends the line it appends with its own line feed, but
    does not look at the end of the text it appends to. *)
Theorem save_changes_loses_binding_on_unterminated_file :
  let st := Some ("# gestures" +:+ chr LF +:+ "device all") in
  let st1 := save_changes "gesture swipe up" 3 "xdotool key super+Up" st in
  let st2 := save_changes "gesture swipe up" 3 "xdotool key ctrl+Up" st1 in
  st1 = Some ("# gestures" +:+ chr LF +:+
              "device allgesture swipe up 3 xdotool key super+Up" +:+ chr LF)
  ∧ keyed "gesture swipe up 3" (read_config st1) = []
  ∧ read_config st2
    = [ "# gestures" +:+ chr LF;
        "device allgesture swipe up 3 xdotool key super+Up" +:+ chr LF;
        "gesture swipe up 3 xdotool key ctrl+Up" +:+ chr LF ].
Proof. by vm_compute. Qed.

(** ** Prefix matching in [delete_entry] and [save_changes] *)

Lemma is_digit_not_space (d : ascii) : is_digit d = true → d ≠ SPACE.
Proof. by intros H ->. Qed.

(** C10. [delete_entry] and [save_changes] decide which lines go by the raw
    prefix test alone: what they write is the lines of the file that do not
    start with the key (plus, for [save_changes], the new line).  So a line
    made of the key ["<action> <n>"] followed at once by a further decimal
    digit, whose finger count is therefore another number, is written by
    neither. *)
Theorem prefix_match_ignores_token_boundary
    (st : store) (action : string) (nfingers : Z) (shortcut : string)
    (d : ascii) (rest : string)
    (Haction : action ≠ EmptyString) (Hfingers : nfingers ≠ 0%Z)
    (Hshortcut : shortcut ≠ EmptyString) (Hd : is_digit d = true) :
  let key := action +:+ " " +:+ str nfingers in
  let victim := action +:+ " " +:+ (str nfingers +:+ String d EmptyString) +:+ rest in
  let others :=
    filter (fun line => startswith key line = false) (read_config st) in
  delete_entry key st = write_config others
  ∧ save_changes action nfingers shortcut st
    = write_config (others ++ [new_line action nfingers shortcut])
  ∧ (victim ∉ others)
  ∧ (victim ∉ others ++ [new_line action nfingers shortcut]).
Proof.
  intros key victim others.
  assert (Hvictim : victim = key +:+ String d rest).
  { unfold victim, key. by rewrite !app_str_assoc. }
  assert (Hout : victim ∉ others).
  { unfold others. rewrite list_elem_of_filter. intros [Hpre _].
    rewrite Hvictim, startswith_app in Hpre. discriminate Hpre. }
  split; [|split; [|split]].
  - unfold delete_entry. by rewrite drop_matching_filter.
  - rewrite save_changes_writes by done.
    unfold save_changes_new_conf. by rewrite drop_matching_filter.
  - done.
  - rewrite elem_of_app, list_elem_of_singleton. intros [?|Heq]; [done|].
    rewrite Hvictim, new_line_key in Heq.
    apply (inj (String.app _)) in Heq. injection Heq as Hsp _.
    by apply is_digit_not_space in Hd.
Qed.

Lemma prefix_match_ignores_token_boundary_witness :
  let st := Some ("gesture swipe up 30 xdotool key a" +:+ chr LF +:+
                  "gesture swipe up 4 xdotool key b" +:+ chr LF) in
  let victim := "gesture swipe up 30 xdotool key a" +:+ chr LF in
  let others :=
    filter (fun line => startswith "gesture swipe up 3" line = false)
      (read_config st) in
  victim ∈ read_config st ∧ (victim ∉ others)
  ∧ delete_entry "gesture swipe up 3" st = write_config others
  ∧ save_changes "gesture swipe up" 3 "xdotool key c" st
    = write_config
        (others ++ [new_line "gesture swipe up" 3 "xdotool key c"]).
Proof.
  intros st victim others.
  destruct (prefix_match_ignores_token_boundary st "gesture swipe up" 3
              "xdotool key c" "0"%char (" xdotool key a" +:+ chr LF))
    as (Hdel & Hsave & Hout & _); [discriminate| discriminate | discriminate | reflexivity |].
  split; [|split; [exact Hout|split; [exact Hdel|exact Hsave]]].
  apply list_elem_of_here.
Defined.

(** ** [find_key_combo] *)

Section FindKeyCombo.
Implicit Types (qt_key : string) (keys acc : list string).

Lemma find_key_combo_body_spec qt_key acc :
  find_key_combo_body qt_key acc = Ok (acc ++ [translate_segment qt_key]).
Proof.
  unfold find_key_combo_body, translate_segment, dict_contains, dict_getitem.
  case_bool_decide as Hin.
  - destruct Hin as [v Hv]. by rewrite Hv.
  - apply eq_None_not_Some in Hin. by rewrite Hin.
Qed.

(** The loop never raises: the lookup is guarded by the membership test. *)
Lemma find_key_combo_loop_spec keys acc :
  find_key_combo_loop keys acc = Ok (acc ++ (translate_segment <$> keys)).
Proof.
  revert acc. induction keys as [|qt_key keys IH]; intros acc;
    cbn [find_key_combo_loop fmap list_fmap].
  - by rewrite app_nil_r.
  - rewrite find_key_combo_body_spec, bind_Ok, IH.
    by rewrite <-app_assoc.
Qed.
End FindKeyCombo.

(** C3. On every combo string [find_key_combo] returns, without raising, the
    text obtained by splitting on [+], lower-casing each segment, replacing
    it by its entry in [keys_mapping] when it has one and keeping the
    lower-cased segment otherwise, and joining with [+].  The two examples of
    the specification come out as stated. *)
Theorem find_key_combo_translates :
  (∀ qt_key_combo : string,
     find_key_combo qt_key_combo = Ok (translate qt_key_combo))
  ∧ (∀ segment : string,
       translate_segment segment =
       match keys_mapping !! lower segment with
       | Some name => name
       | None => lower segment
       end)
  ∧ find_key_combo "Ctrl+Meta+PgDown" = Ok "ctrl+super+Page_Down"
  ∧ find_key_combo "Alt+Q" = Ok "alt+q".
Proof.
  split; [|split; [|split]].
  - intros qt_key_combo. unfold find_key_combo, translate.
    by rewrite find_key_combo_loop_spec.
  - intros segment. unfold translate_segment.
    by destruct (keys_mapping !! lower segment).
  - by vm_compute.
  - by vm_compute.
Qed.

(** ** [resub_config] *)

Section Resub.
Implicit Types (s : string) (a c d r : ascii).

Lemma universal_newlines_no_cr s : occurs CR (universal_newlines s) = false.
Proof.
  induction s as [|a s IH]; [done|]. cbn [universal_newlines].
  case_bool_decide as Ha.
  - destruct s as [|b s']; [done|]. by case_bool_decide.
  - cbn [occurs]. by rewrite bool_decide_eq_false_2.
Qed.

Lemma universal_newlines_id s :
  occurs CR s = false → universal_newlines s = s.
Proof.
  induction s as [|a s IH]; [done|]. cbn [occurs universal_newlines].
  intros [Ha Hs]%orb_false_iff. rewrite Ha. by rewrite IH.
Qed.

Lemma re_sub_plus_id c (t : string) s :
  occurs c s = false → re_sub_plus c t s = s.
Proof.
  induction s as [|a s IH]; [done|]. cbn [occurs re_sub_plus].
  intros [Ha Hs]%orb_false_iff. rewrite Ha. by rewrite IH.
Qed.

Lemma replace_id c (t : string) s : occurs c s = false → replace c t s = s.
Proof.
  induction s as [|a s IH]; [done|]. cbn [occurs replace].
  intros [Ha Hs]%orb_false_iff. rewrite Ha. by rewrite IH.
Qed.

(** A character that is neither in the text nor the replacement is not in
    the result. *)
Lemma occurs_re_sub_plus d c r s :
  d ≠ r → occurs d s = false →
  occurs d (re_sub_plus c (String r EmptyString) s) = false.
Proof.
  intros Hdr. induction s as [|a s IH]; [done|]. cbn [occurs re_sub_plus].
  intros [Ha%bool_decide_eq_false Hs]%orb_false_iff. specialize (IH Hs).
  case_bool_decide as Hac.
  - destruct s as [|b s'].
    + cbn. by rewrite bool_decide_eq_false_2.
    + case_bool_decide; [done|].
      rewrite app_str_cons, app_str_nil_l. cbn [occurs].
      by rewrite bool_decide_eq_false_2.
  - cbn [occurs]. by rewrite bool_decide_eq_false_2.
Qed.

Lemma occurs_replace d c r s :
  d ≠ r → occurs d s = false →
  occurs d (replace c (String r EmptyString) s) = false.
Proof.
  intros Hdr. induction s as [|a s IH]; [done|]. cbn [occurs replace].
  intros [Ha%bool_decide_eq_false Hs]%orb_false_iff. specialize (IH Hs).
  case_bool_decide as Hac.
  - rewrite app_str_cons, app_str_nil_l. cbn [occurs].
    by rewrite bool_decide_eq_false_2.
  - cbn [occurs]. by rewrite bool_decide_eq_false_2.
Qed.

(** After the substitution the character is gone, when the replacement is
    another one. *)
Lemma re_sub_plus_removes c r s :
  c ≠ r → occurs c (re_sub_plus c (String r EmptyString) s) = false.
Proof.
  intros Hcr. induction s as [|a s IH]; [done|]. cbn [re_sub_plus].
  case_bool_decide as Hac.
  - destruct s as [|b s'].
    + cbn. by rewrite bool_decide_eq_false_2.
    + case_bool_decide; [done|].
      rewrite app_str_cons, app_str_nil_l. cbn [occurs].
      by rewrite bool_decide_eq_false_2.
  - cbn [occurs]. by rewrite bool_decide_eq_false_2.
Qed.

(** Collapsing the runs of [c] into one [c] leaves no two in a row. *)
Lemma re_sub_plus_not_doubled c s :
  doubled c (re_sub_plus c (String c EmptyString) s) = false.
Proof.
  induction s as [|a s IH]; [done|]. cbn [re_sub_plus].
  case_bool_decide as Hac.
  - destruct s as [|b s'].
    + cbn. by rewrite andb_false_r.
    + case_bool_decide as Hbc; [done|].
      rewrite app_str_cons, app_str_nil_l. cbn [doubled].
      rewrite IH, orb_false_r. cbn [re_sub_plus].
      rewrite (bool_decide_eq_false_2 _ Hbc). cbn.
      rewrite (bool_decide_eq_false_2 (c = b)) by congruence.
      by destruct (bool_decide (c = c)).
  - cbn [doubled]. by rewrite IH, (bool_decide_eq_false_2 _ Hac).
Qed.

Lemma re_sub_plus_id_not_doubled c s :
  doubled c s = false → re_sub_plus c (String c EmptyString) s = s.
Proof.
  induction s as [|a s IH]; [done|]. cbn [doubled re_sub_plus].
  intros [Ha Hs]%orb_false_iff. specialize (IH Hs).
  destruct (decide (a = c)) as [->|Hac].
  - rewrite bool_decide_eq_true_2 by done.
    destruct s as [|b s']; [done|].
    destruct (decide (b = c)) as [->|Hbc].
    + cbn in Ha. by rewrite !bool_decide_eq_true_2 in Ha.
    + rewrite (bool_decide_eq_false_2 (b = c)) by done.
      by rewrite app_str_cons, app_str_nil_l, IH.
  - rewrite (bool_decide_eq_false_2 (a = c)) by done. by rewrite IH.
Qed.

Lemma resub_no_tab s : occurs TAB (resub s) = false.
Proof.
  unfold resub. apply occurs_re_sub_plus; [done|].
  apply occurs_replace; [done|]. by apply re_sub_plus_removes.
Qed.

Lemma resub_no_cr s : occurs CR s = false → occurs CR (resub s) = false.
Proof.
  intros H. unfold resub. apply occurs_re_sub_plus; [done|].
  apply occurs_replace; [done|]. by apply occurs_re_sub_plus.
Qed.

Lemma resub_not_doubled s : doubled SPACE (resub s) = false.
Proof. unfold resub. apply re_sub_plus_not_doubled. Qed.

Lemma resub_fixpoint s :
  occurs TAB s = false → doubled SPACE s = false → resub s = s.
Proof.
  intros Htab Hsp. unfold resub.
  rewrite (re_sub_plus_id TAB) by done. rewrite replace_id by done.
  by apply re_sub_plus_id_not_doubled.
Qed.

Lemma join_read_config (st : store) :
  join EmptyString (read_config st) = decoded st.
Proof. destruct st as [text|]; [apply join_empty_readlines|done]. Qed.

Lemma resub_config_text (st : store) :
  resub_config st = Some (resub (decoded st)).
Proof.
  unfold resub_config. by rewrite write_config_iter, join_read_config.
Qed.

Lemma decoded_no_cr (st : store) : occurs CR (decoded st) = false.
Proof. destruct st; [apply universal_newlines_no_cr|done]. Qed.
End Resub.

(** C7. [resub_config] is idempotent: run on the file it has written, it
    writes the same content again, whatever the file held before (and also
    when there was no file). *)
Theorem resub_config_idempotent (st : store) :
  resub_config (resub_config st) = resub_config st.
Proof.
  rewrite !resub_config_text. f_equal. cbn [decoded].
  rewrite universal_newlines_id by (apply resub_no_cr, decoded_no_cr).
  apply resub_fixpoint; [apply resub_no_tab|apply resub_not_doubled].
Qed.

(** ** Line sequences: reading back what was written *)

Section Lines.
Implicit Types (s l body rest : string) (ls ks : list string) (a c : ascii).

Lemma occurs_app c s rest :
  occurs c (s +:+ rest) = occurs c s || occurs c rest.
Proof.
  induction s as [|a s IH]; [done|].
  rewrite app_str_cons. cbn [occurs]. by rewrite IH, orb_assoc.
Qed.

Lemma readlines_line_sequence s : line_sequence (readlines s).
Proof.
  induction s as [|a s IH]; [done|]. cbn [readlines].
  destruct (decide (a = LF)) as [->|Ha].
  - rewrite bool_decide_eq_true_2 by done. split; [|done].
    left. by exists EmptyString.
  - rewrite (bool_decide_eq_false_2 (a = LF)) by done.
    destruct (readlines s) as [|t ts]; cbn [cons_head line_sequence].
    + split; [|done]. right. split; [|done]. split; [done|].
      cbn. by rewrite bool_decide_eq_false_2.
    + destruct IH as [[(body & -> & Hbody)|[[Ht Hlf] ->]] Hts]; (split; [|done]).
      * left. exists (String a body). split; [done|].
        cbn. by rewrite bool_decide_eq_false_2.
      * right. split; [|done]. split; [done|].
        cbn [occurs]. by rewrite bool_decide_eq_false_2.
Qed.

Lemma line_sequence_sublist ks ls :
  ks `sublist_of` ls → line_sequence ls → line_sequence ks.
Proof.
  induction 1 as [|x l1 l2 Hsub IH|x l1 l2 Hsub IH]; [done|..].
  - intros [[Hx|[Hx ->]] Hl2]; (split; [|by apply IH]).
    + by left.
    + right. split; [done|]. by apply sublist_nil_r.
  - intros [_ Hl2]. by apply IH.
Qed.

Lemma readlines_terminated body rest :
  occurs LF body = false →
  readlines (body +:+ chr LF +:+ rest) = (body +:+ chr LF) :: readlines rest.
Proof.
  induction body as [|a body IH]; [done|]. cbn [occurs].
  intros [Ha%bool_decide_eq_false Hbody]%orb_false_iff.
  rewrite !app_str_cons. cbn [readlines].
  rewrite (bool_decide_eq_false_2 (a = LF)) by done. by rewrite IH.
Qed.

Lemma readlines_unterminated l : unterminated l → readlines l = [l].
Proof.
  intros [Hne Hlf]. induction l as [|a l IH]; [done|].
  cbn [occurs] in Hlf.
  apply orb_false_iff in Hlf as [Ha%bool_decide_eq_false Hl].
  cbn [readlines]. rewrite (bool_decide_eq_false_2 (a = LF)) by done.
  destruct l as [|b l']; [done|]. by rewrite IH.
Qed.

(** A sequence of lines in the shape [readlines] gives is read back as it
    was written. *)
Lemma readlines_join ls :
  line_sequence ls → readlines (join EmptyString ls) = ls.
Proof.
  induction ls as [|l ls IH]; [done|].
  intros [[(body & -> & Hbody)|[Hl ->]] Hls].
  - rewrite join_empty_cons, app_str_assoc.
    rewrite readlines_terminated by done. by rewrite IH.
  - by apply readlines_unterminated.
Qed.

Lemma occurs_join c ls :
  Forall (fun l => occurs c l = false) ls →
  occurs c (join EmptyString ls) = false.
Proof.
  induction 1 as [|l ls Hl Hls IH]; [done|].
  by rewrite join_empty_cons, occurs_app, Hl, IH.
Qed.

Lemma occurs_readlines c s :
  occurs c s = false → Forall (fun l => occurs c l = false) (readlines s).
Proof.
  induction s as [|a s IH]; [constructor|]. cbn [occurs readlines].
  intros [Ha Hs]%orb_false_iff. specialize (IH Hs).
  destruct (decide (a = LF)) as [->|Hlf].
  - rewrite bool_decide_eq_true_2 by done. constructor; [|done].
    cbn. by rewrite Ha.
  - rewrite (bool_decide_eq_false_2 (a = LF)) by done.
    destruct (readlines s) as [|t ts]; cbn [cons_head].
    + constructor; [|done]. cbn. by rewrite Ha.
    + inversion_clear IH as [|? ? Ht Hts]. constructor; [|done].
      cbn [occurs]. by rewrite Ha, Ht.
Qed.

Lemma Forall_sublist_of {A} (P : A → Prop) (ks ls : list A) :
  ks `sublist_of` ls → Forall P ls → Forall P ks.
Proof.
  induction 1 as [|x l1 l2 Hsub IH|x l1 l2 Hsub IH]; [done|..];
    inversion_clear 1; [constructor|]; auto.
Qed.

Lemma read_config_line_sequence (st : store) : line_sequence (read_config st).
Proof. destruct st; [apply readlines_line_sequence|done]. Qed.

Lemma read_config_no_cr (st : store) :
  Forall (fun l => occurs CR l = false) (read_config st).
Proof.
  destruct st as [text|]; [|constructor].
  apply occurs_readlines, universal_newlines_no_cr.
Qed.

(** Writing a line sequence of that shape, free of carriage returns, and
    reading the file again gives the same lines. *)
Lemma read_write_config ls :
  line_sequence ls → Forall (fun l => occurs CR l = false) ls →
  read_config (write_config ls) = ls.
Proof.
  intros Hls Hcr. unfold write_config, read_config.
  rewrite universal_newlines_id by by apply occurs_join.
  by apply readlines_join.
Qed.

(** So every subsequence of what was read can be written and read back. *)
Lemma read_write_sublist (st : store) ks :
  ks `sublist_of` read_config st → read_config (write_config ks) = ks.
Proof.
  intros Hsub. apply read_write_config.
  - eapply line_sequence_sublist; [done|apply read_config_line_sequence].
  - eapply Forall_sublist_of; [done|apply read_config_no_cr].
Qed.
End Lines.

(** ** [fix_config] *)

Section FixConfig.
Implicit Types (line kw : string) (conf fixed_conf out : list string).

(** The body of the loop appends the line or leaves the list alone. *)
Lemma fix_config_body_outcome line fixed_conf out :
  fix_config_body line fixed_conf = Ok out →
  out = fixed_conf ++ [line] ∨ out = fixed_conf.
Proof.
  unfold fix_config_body, mbind, result_bind. intros H.
  repeat case_match; simplify_eq; auto.
Qed.

Lemma fix_config_loop_sublist conf fixed_conf out :
  fix_config_loop conf fixed_conf = Ok out →
  ∃ kept, out = fixed_conf ++ kept ∧ kept `sublist_of` conf.
Proof.
  revert fixed_conf. induction conf as [|line conf IH]; intros fixed_conf; simpl.
  - intros [= <-]. exists []. by rewrite app_nil_r.
  - unfold mbind, result_bind.
    destruct (fix_config_body line fixed_conf) as [acc|e] eqn:Hbody; [|done].
    intros (kept & -> & Hsub)%IH.
    apply fix_config_body_outcome in Hbody as [->| ->].
    + exists (line :: kept). rewrite <-app_assoc. split; [done|].
      by constructor.
    + exists kept. split; [done|]. by constructor.
Qed.

(** The body does not look at [fixed_conf]. *)
Lemma fix_config_body_acc line fixed_conf :
  fix_config_body line fixed_conf
  = (kept ← fix_config_body line []; Ok (fixed_conf ++ kept)).
Proof.
  unfold fix_config_body, mbind, result_bind.
  repeat case_match; simplify_eq; by rewrite ?app_nil_r.
Qed.

Lemma fix_config_keeps_true line fixed_conf :
  fix_config_keeps line = true ↔
  fix_config_body line fixed_conf = Ok (fixed_conf ++ [line]).
Proof.
  unfold fix_config_keeps. rewrite (fix_config_body_acc line fixed_conf).
  destruct (fix_config_body line []) as [kept|e] eqn:Hbody; [|done].
  rewrite bind_Ok.
  apply fix_config_body_outcome in Hbody as [-> | ->]; [done|].
  rewrite app_nil_r. split; [done|]. intros [= H]. symmetry in H.
  by apply snoc_ne in H.
Qed.

(** When the loop completes, it has kept the lines the body appends, all of
    them and in their order. *)
Lemma fix_config_loop_filter conf fixed_conf out :
  fix_config_loop conf fixed_conf = Ok out →
  out = fixed_conf ++ filter (fun line => fix_config_keeps line = true) conf.
Proof.
  revert fixed_conf. induction conf as [|line conf IH]; intros fixed_conf.
  - intros [= <-]. by rewrite app_nil_r.
  - cbn [fix_config_loop]. rewrite filter_cons.
    destruct (fix_config_body line fixed_conf) as [acc|e] eqn:Hbody; [|done].
    rewrite bind_Ok. intros Hloop%IH. clear IH. subst out.
    case_decide as Hkeep.
    + apply (fix_config_keeps_true line fixed_conf) in Hkeep.
      rewrite Hkeep in Hbody. injection Hbody as <-. by rewrite <-app_assoc.
    + destruct (fix_config_body_outcome _ _ _ Hbody) as [-> | ->]; [|done].
      destruct Hkeep. by apply (fix_config_keeps_true line fixed_conf).
Qed.

(** The file after [fix_config], read again: the lines of the file before
    that the body appends. *)
Lemma fix_config_read_back (st st' : store) :
  fix_config st = Ok st' →
  read_config st'
  = filter (fun line => fix_config_keeps line = true) (read_config st).
Proof.
  unfold fix_config. intros Hfix.
  destruct (fix_config_loop (read_config st) []) as [fixed_conf|e] eqn:Hloop;
    [|done].
  rewrite bind_Ok in Hfix. injection Hfix as <-.
  apply fix_config_loop_filter in Hloop as ->.
  rewrite app_nil_l, write_config_iter.
  apply (read_write_sublist st), sublist_filter.
Qed.

(** Comments and empty lines pass. *)
Lemma fix_config_body_comment line fixed_conf :
  startswith "#" line = true ∨ line = chr LF →
  fix_config_body line fixed_conf = Ok (fixed_conf ++ [line]).
Proof.
  intros Hline. unfold fix_config_body.
  destruct Hline as [-> | ->]; [done|]. by rewrite orb_true_r.
Qed.
End FixConfig.

(** C6. Whenever [fix_config] writes the file, the lines it writes are a
    subsequence of the lines it read: each is a line of the input, verbatim,
    and they come in the input's order.  The file read again gives exactly
    these lines. *)
Theorem fix_config_subsequence (st st' : store)
    (Hfix : fix_config st = Ok st') :
  ∃ fixed_conf : list string,
    st' = write_config fixed_conf
    ∧ fixed_conf `sublist_of` read_config st
    ∧ read_config st' = fixed_conf.
Proof.
  unfold fix_config, mbind, result_bind in Hfix.
  destruct (fix_config_loop (read_config st) []) as [fixed_conf|e] eqn:Hloop;
    [|done].
  injection Hfix as <-.
  apply fix_config_loop_sublist in Hloop as (kept & -> & Hsub).
  exists kept. rewrite app_nil_l, write_config_iter.
  split; [done|]. split; [done|].
  by apply (read_write_sublist st).
Qed.

Lemma fix_config_subsequence_witness :
  let st :=
    Some ("# gestures" +:+ chr LF +:+
          "gesture pinch in 2 xdotool key ctrl+alt+t" +:+ chr LF +:+
          "gesture swipe down 3 qdbus org.kde.kglobalaccel /component/kwin invokeShortcut Expose" +:+ chr LF +:+
          "device one two" +:+ chr LF +:+
          "swipe_threshold 0") in
  let st' :=
    Some ("# gestures" +:+ chr LF +:+
          "gesture pinch in 2 xdotool key ctrl+alt+t" +:+ chr LF +:+
          "swipe_threshold 0") in
  fix_config st = Ok st' ∧ read_config st' `sublist_of` read_config st.
Proof.
  intros st st'.
  assert (Hfix : fix_config st = Ok st') by reflexivity.
  split; [exact Hfix|].
  destruct (fix_config_subsequence st st' Hfix) as (fixed_conf & _ & Hsub & ->).
  exact Hsub.
Defined.

Section FixConfigLine.
Implicit Types (line kw cur s : string) (fixed_conf : list string).

(** Turning the tabs into spaces first does not change the tokens. *)
Lemma split_go_replace_tab cur s :
  split_go cur (replace TAB " " s) = split_go cur s.
Proof.
  revert cur. induction s as [|a s IH]; intros cur; [done|].
  cbn [replace]. destruct (decide (a = TAB)) as [->|Ha].
  - rewrite bool_decide_eq_true_2 by done.
    rewrite app_str_cons, app_str_nil_l. cbn [split_go].
    change (isspace " ") with true. change (isspace TAB) with true.
    cbn iota. by rewrite !IH.
  - rewrite (bool_decide_eq_false_2 (a = TAB)) by done.
    cbn [split_go]. by rewrite !IH.
Qed.

Lemma split_replace_tab s : split (replace TAB " " s) = split s.
Proof. apply split_go_replace_tab. Qed.

Lemma truthy_app cur s : truthy cur = true → truthy (cur +:+ s) = true.
Proof. by destruct cur. Qed.

(** The token being read is the beginning of the first token returned. *)
Lemma split_go_head cur s :
  truthy cur = true → ∃ t ts, split_go cur s = (cur +:+ t) :: ts.
Proof.
  revert cur. induction s as [|a s IH]; intros cur Hcur; cbn [split_go].
  - rewrite Hcur. exists EmptyString, []. by rewrite app_str_nil_r.
  - destruct (isspace a).
    + rewrite Hcur. exists EmptyString. eexists. by rewrite app_str_nil_r.
    + destruct (IH (cur +:+ chr a)) as (t & ts & ->); [by apply truthy_app|].
      exists (String a t), ts. by rewrite app_str_assoc.
Qed.

(** The first token of a comment line starts with the hash sign. *)
Lemma split_comment line kw :
  startswith "#" line = true → split line !! 0 = Some kw →
  startswith "#" kw = true.
Proof.
  intros [rest ->]%startswith_spec. unfold split.
  rewrite app_str_cons, app_str_nil_l. cbn [split_go].
  change (isspace "#") with false. cbn iota.
  destruct (split_go_head (EmptyString +:+ chr "#") rest) as (t & ts & ->);
    [done|].
  intros [= <-]. apply startswith_app.
Qed.

(** On a line whose first token is a keyword the first test of the body
    fails, and the body goes on with the tokens. *)
Lemma fix_config_body_keyword line kw fixed_conf :
  split line !! 0 = Some kw →
  kw ∈ ["gesture"; "device"; "swipe_threshold"] →
  fix_config_body line fixed_conf =
  let splitted := split line in
  if bool_decide (kw = "gesture") then
    s4 ← getitem splitted 4;
    if bool_decide (s4 = "xdotool") then
      s5 ← getitem splitted 5;
      if bool_decide (s5 = "key") && bool_decide (length splitted = 7)
      then Ok (fixed_conf ++ [line])
      else Ok fixed_conf
    else if contains "qdbus" s4 then
      sl ← getitem_last splitted;
      if endswith (chr QUOTE) sl then Ok (fixed_conf ++ [line])
      else Ok fixed_conf
    else Ok (fixed_conf ++ [line])
  else
    if bool_decide (length splitted = 2) then Ok (fixed_conf ++ [line])
    else Ok fixed_conf.
Proof.
  intros Hkw Hin. unfold fix_config_body.
  assert (Hhash : startswith "#" line = false).
  { destruct (startswith "#" line) eqn:Hhash; [|done].
    pose proof (split_comment _ _ Hhash Hkw) as Hk.
    set_unfold in Hin. by destruct Hin as [->|[->|[->|[]]]]. }
  assert (Hlf : line ≠ chr LF) by (by intros ->).
  rewrite Hhash, (bool_decide_eq_false_2 _ Hlf). cbn [orb].
  cbv zeta. rewrite split_replace_tab.
  assert (Hget : getitem (split line) 0 = Ok kw)
    by (unfold getitem; by rewrite Hkw).
  rewrite Hget, bind_Ok. by rewrite (bool_decide_eq_true_2 _ Hin).
Qed.
End FixConfigLine.

(** The loop body on a line whose first token is a keyword: it appends a
    [gesture] line exactly under the rule [gesture_kept], and a [device] or
    [swipe_threshold] line exactly when it has two tokens. *)
Lemma fix_config_body_keeps_line
    (line : string) (fixed_conf : list string) (kw : string)
    (Hkw : split line !! 0 = Some kw) :
  (kw = "gesture" →
     (fix_config_body line fixed_conf = Ok (fixed_conf ++ [line])
      ↔ gesture_kept (split line)))
  ∧ (kw = "device" ∨ kw = "swipe_threshold" →
       (fix_config_body line fixed_conf = Ok (fixed_conf ++ [line])
        ↔ length (split line) = 2)).
Proof.
  assert (Hsame : Ok fixed_conf ≠ Ok (fixed_conf ++ [line])).
  { intros [= H]. by apply (snoc_ne fixed_conf line). }
  split.
  - intros ->. rewrite (fix_config_body_keyword line "gesture") by set_solver.
    cbv zeta. rewrite bool_decide_eq_true_2 by done.
    unfold gesture_kept, getitem, getitem_last. split.
    + destruct (split line !! 4) as [t4|] eqn:H4; [|done].
      rewrite bind_Ok. intros Hbody. exists t4. split; [done|].
      destruct (decide (t4 = "xdotool")) as [->|Hx].
      * rewrite bool_decide_eq_true_2 in Hbody by done.
        destruct (split line !! 5) as [t5|] eqn:H5; [|done].
        rewrite bind_Ok in Hbody.
        destruct (bool_decide (t5 = "key")) eqn:Hk; [|done].
        destruct (bool_decide (length (split line) = 7)) eqn:Hlen; [|done].
        apply bool_decide_eq_true_1 in Hk as ->.
        apply bool_decide_eq_true_1 in Hlen. by left.
      * rewrite (bool_decide_eq_false_2 (t4 = "xdotool")) in Hbody by done.
        destruct (contains "qdbus" t4) eqn:Hq; [|by right; right].
        destruct (last (split line)) as [tl|] eqn:Hl; [|done].
        rewrite bind_Ok in Hbody.
        destruct (endswith (chr QUOTE) tl) eqn:He; [|done].
        right; left. split; [done|]. by exists tl.
    + intros (t4 & -> & [(-> & -> & Hlen)|[(Hq & tl & -> & He)|(Hx & Hq)]]);
        rewrite bind_Ok.
      * rewrite bool_decide_eq_true_2 by done. rewrite bind_Ok.
        by rewrite !bool_decide_eq_true_2 by done.
      * assert (Hx : t4 ≠ "xdotool") by (by intros ->).
        rewrite (bool_decide_eq_false_2 (t4 = "xdotool")) by done.
        by rewrite Hq, bind_Ok, He.
      * rewrite (bool_decide_eq_false_2 (t4 = "xdotool")) by done.
        by rewrite Hq.
  - intros Hdev.
    assert (Hg : kw ≠ "gesture") by (by destruct Hdev as [-> | ->]).
    rewrite (fix_config_body_keyword line kw)
      by (destruct Hdev as [-> | ->]; set_solver).
    cbv zeta. rewrite (bool_decide_eq_false_2 (kw = "gesture")) by done.
    case_bool_decide as Hlen; [done|]. by split.
Qed.

(** C1. Whenever [fix_config] completes, a line of the file it read whose
    first whitespace-separated token is [gesture] is a line of the file it
    wrote if and only if the line has a token 4 and either that token is
    [xdotool], token 5 is [key] and there are exactly 7 tokens, or that token
    contains [qdbus] and the last token ends with a double quote, or that
    token is anything else.  A line whose first token is [device] or
    [swipe_threshold] is a line of the file written if and only if it has
    exactly two tokens. *)
Theorem fix_config_keeps_line
    (st st' : store) (line kw : string)
    (Hfix : fix_config st = Ok st')
    (Hline : line ∈ read_config st)
    (Hkw : split line !! 0 = Some kw) :
  (kw = "gesture" →
     (line ∈ read_config st' ↔ gesture_kept (split line)))
  ∧ (kw = "device" ∨ kw = "swipe_threshold" →
       (line ∈ read_config st' ↔ length (split line) = 2)).
Proof.
  rewrite (fix_config_read_back st st' Hfix).
  assert (Hin :
    line ∈ filter (fun l => fix_config_keeps l = true) (read_config st)
    ↔ fix_config_body line [] = Ok ([] ++ [line])).
  { rewrite list_elem_of_filter, (fix_config_keeps_true line []). tauto. }
  rewrite Hin. by apply fix_config_body_keeps_line.
Qed.

Lemma fix_config_keeps_line_witness :
  let kept := "gesture pinch in 2 xdotool key ctrl+alt+t" +:+ chr LF in
  let dropped := "device one two" +:+ chr LF in
  let st := Some (kept +:+ dropped) in
  let st' := Some kept in
  fix_config st = Ok st'
  ∧ kept ∈ read_config st' ∧ dropped ∉ read_config st'.
Proof.
  intros kept dropped st st'.
  assert (Hfix : fix_config st = Ok st') by reflexivity.
  split; [exact Hfix|]. split.
  - apply (proj1 (fix_config_keeps_line st st' kept "gesture" Hfix
                    ltac:(by left) eq_refl) eq_refl).
    exists "xdotool". split; [reflexivity|]. left. by repeat split.
  - intros Hin.
    apply (proj2 (fix_config_keeps_line st st' dropped "device" Hfix
                    ltac:(right; by left) eq_refl)) in Hin;
      [discriminate Hin|by left].
Defined.

Section FixConfigRaises.
Implicit Types (line : string) (conf fixed_conf : list string).

(** A line of white space only, other than the bare line feed, has no
    token 0. *)
Lemma fix_config_body_blank line fixed_conf :
  split line = [] → line ≠ chr LF →
  fix_config_body line fixed_conf = Raise IndexError.
Proof.
  intros Hsplit Hlf. unfold fix_config_body.
  assert (Hhash : startswith "#" line = false).
  { destruct (startswith "#" line) eqn:Hhash; [|done].
    apply startswith_spec in Hhash as [rest ->]. unfold split in Hsplit.
    rewrite app_str_cons, app_str_nil_l in Hsplit. cbn [split_go] in Hsplit.
    change (isspace "#") with false in Hsplit. cbn iota in Hsplit.
    by destruct (split_go_head (EmptyString +:+ chr "#") rest)
      as (t & ts & Heq); [done|rewrite Heq in Hsplit]. }
  rewrite Hhash, (bool_decide_eq_false_2 _ Hlf). cbn [orb]. cbv zeta.
  by rewrite split_replace_tab, Hsplit.
Qed.

(** A [gesture] line with fewer than five tokens has no token 4. *)
Lemma fix_config_body_short_gesture line fixed_conf :
  split line !! 0 = Some "gesture" → length (split line) < 5 →
  fix_config_body line fixed_conf = Raise IndexError.
Proof.
  intros Hkw Hlen.
  rewrite (fix_config_body_keyword line "gesture") by set_solver.
  cbv zeta. rewrite bool_decide_eq_true_2 by done. unfold getitem.
  by rewrite (lookup_ge_None_2 (split line) 4) by lia.
Qed.

(** One line that raises makes the whole of [fix_config] raise: nothing is
    written. *)
Lemma fix_config_loop_raises conf fixed_conf line e :
  line ∈ conf → (∀ acc, fix_config_body line acc = Raise e) →
  ∃ e', fix_config_loop conf fixed_conf = Raise e'.
Proof.
  intros Hin Hraise. revert fixed_conf.
  induction conf as [|l conf IH]; intros fixed_conf; [by inversion Hin|].
  cbn [fix_config_loop].
  destruct (fix_config_body l fixed_conf) as [acc|e0] eqn:Hbody;
    [|by exists e0].
  rewrite bind_Ok. apply elem_of_cons in Hin as [->|Hin]; [|by apply IH].
  by rewrite Hraise in Hbody.
Qed.
End FixConfigRaises.

(** C5. [fix_config] is not total.  On a file holding a [gesture] line with
    fewer than five tokens, a line of white space only, or an [xdotool] line
    cut after [xdotool], it raises [IndexError] and writes nothing; the
    comment and the empty line beside them are not let through.  Its
    docstring has such lines deleted. *)
Theorem fix_config_raises_index_error :
  fix_config (Some ("gesture swipe up" +:+ chr LF)) = Raise IndexError
  ∧ fix_config (Some ("# comment" +:+ chr LF +:+ chr LF +:+
                      "  " +:+ chr LF)) = Raise IndexError
  ∧ fix_config (Some ("gesture swipe up 3 xdotool" +:+ chr LF))
    = Raise IndexError.
Proof. by vm_compute. Qed.

(** ** [prepare_config_for_displaying] *)

Section Prepare.
Implicit Types (line : string) (splitted : list string) (d : display).

(** In the [qdbus] branch, a line without a quoted part has no match 0. *)
Lemma decode_action_unquoted line splitted (s4 : string) d :
  splitted !! 4 = Some s4 → contains "qdbus" s4 = true →
  findall_quoted line = [] →
  decode_action line splitted d = Raise IndexError.
Proof.
  intros H4 Hq Hfind. unfold decode_action, getitem.
  rewrite H4, bind_Ok.
  assert (Hx : s4 ≠ "xdotool") by (by intros ->).
  rewrite (bool_decide_eq_false_2 (s4 = "xdotool")) by done.
  by rewrite bind_Ok, Hq, Hfind.
Qed.

(** In the [qdbus] branch, a quoted part that is not empty is the payload. *)
Lemma decode_action_quoted line splitted (s4 name : string) d names :
  splitted !! 4 = Some s4 → contains "qdbus" s4 = true →
  findall_quoted line = name :: names → name ≠ EmptyString →
  decode_action line splitted d
  = Ok (append_shortcut name (append_action "Plasma action" d)).
Proof.
  intros H4 Hq Hfind Hname. unfold decode_action, getitem.
  rewrite H4, bind_Ok.
  assert (Hx : s4 ≠ "xdotool") by (by intros ->).
  rewrite (bool_decide_eq_false_2 (s4 = "xdotool")) by done.
  rewrite bind_Ok, Hq, Hfind. cbn [lookup list_lookup]. rewrite bind_Ok.
  by rewrite truthy_ne.
Qed.
End Prepare.

(** C4. On the [qdbus] line of the specification written without quotes,
    [prepare_config_for_displaying] raises [IndexError]: [re.findall] returns
    no match and its element 0 is taken before the fallback is reached.  The
    fallback to the last token runs only when the first quoted part is empty.
    With the name in quotes the payload is the name. *)
Theorem prepare_unquoted_qdbus_raises :
  let prefix :=
    "gesture swipe down 3 qdbus org.kde.kglobalaccel /component/kwin invokeShortcut " in
  prepare_config_for_displaying (Some (prefix +:+ "Expose" +:+ chr LF))
  = Raise IndexError
  ∧ shortcuts <$> prepare_config_for_displaying
      (Some (prefix +:+ chr QUOTE +:+ "Expose" +:+ chr QUOTE +:+ chr LF))
    = Ok ["Expose"]
  ∧ shortcuts <$> prepare_config_for_displaying
      (Some (prefix +:+ chr QUOTE +:+ chr QUOTE +:+ "Expose" +:+ chr LF))
    = Ok ["Expose"].
Proof. by vm_compute. Qed.

(** ** The mappings *)

(** C8. The two dictionaries are not inverse of each other.  The phrase
    [actions_mapping] gives for [Swipe LeftDown] has two spaces before
    [left_down] and is no key of [reversed_mapping]; going there and back
    raises [KeyError] for this label, and changes the phrase
    [gesture swipe left_down].  The eleven other labels and phrases come
    back. *)
Theorem mappings_not_inverse_at_left_down :
  actions_mapping !! "Swipe LeftDown" = Some "gesture swipe  left_down"
  ∧ reversed_mapping !! "gesture swipe  left_down" = None
  ∧ (fun label => dict_getitem actions_mapping label
                  ≫= dict_getitem reversed_mapping) <$> gesture_labels
    = [ Ok "Swipe Up"; Ok "Swipe Down"; Ok "Swipe Left"; Ok "Swipe LeftUp";
        Raise KeyError; Ok "Swipe Right"; Ok "Swipe RightUp";
        Ok "Swipe RightDown"; Ok "Pinch In"; Ok "Pinch Out";
        Ok "Pinch Clockwise"; Ok "Pinch Anticlockwise" ]
  ∧ (fun phrase => dict_getitem reversed_mapping phrase
                   ≫= dict_getitem actions_mapping) <$> gesture_phrases
    = [ Ok "gesture swipe up"; Ok "gesture swipe down"; Ok "gesture swipe left";
        Ok "gesture swipe left_up"; Ok "gesture swipe  left_down";
        Ok "gesture swipe right"; Ok "gesture swipe right_up";
        Ok "gesture swipe right_down"; Ok "gesture pinch in";
        Ok "gesture pinch out"; Ok "gesture pinch clockwise";
        Ok "gesture pinch anticlockwise" ].
Proof. by vm_compute. Qed.

(** ** [sort_config] *)

(** C9. The finger counts are the tokens of the file, kept as text, and
    [sort_config] compares them as text: with the same label, the binding with
    10 fingers comes before the binding with 2 fingers.  The docstrings of
    [sort_config] and [prepare_config_for_displaying] announce a list of
    [int]. *)
Theorem sort_config_compares_fingers_as_text :
  display_config
    (Some ("gesture swipe up 2 xdotool key a" +:+ chr LF +:+
           "gesture swipe up 10 xdotool key b" +:+ chr LF))
  = Ok {| gestures := ["Swipe Up"; "Swipe Up"];
          fingers := ["10"; "2"];
          shortcuts := ["b"; "a"];
          buttons := ["gesture swipe up 10"; "gesture swipe up 2"];
          actions := ["Keyboard shortcut"; "Keyboard shortcut"] |}.
Proof. by vm_compute. Qed.

(** * Further properties of the configuration engine *)

(** ** When [fix_config] raises *)

Section FixConfigErrors.
Implicit Types (line : string) (conf fixed_conf : list string).

(** The body raises on exactly the lines described by [fix_config_fails],
    and only ever [IndexError]. *)
Lemma fix_config_body_raises_iff line fixed_conf e :
  fix_config_body line fixed_conf = Raise e ↔
  e = IndexError ∧ fix_config_fails line.
Proof.
  unfold fix_config_fails.
  destruct (startswith "#" line) eqn:Hhash.
  { rewrite fix_config_body_comment by by left. split; [done|]. by intros (_&?&_). }
  destruct (decide (line = chr LF)) as [->|Hlf].
  { split; [done|]. by intros (_&_&?&_). }
  destruct (split line) as [|kw toks] eqn:Hsplit.
  { rewrite fix_config_body_blank by done. split; [|by intros [-> _]].
    intros [= <-]. split; [done|]. split; [done|]. split; [done|]. by left. }
  destruct (decide (kw ∈ ["gesture"; "device"; "swipe_threshold"])) as [Hin|Hin].
  - rewrite (fix_config_body_keyword line kw) by (by rewrite ?Hsplit).
    cbv zeta. rewrite Hsplit.
    destruct (decide (kw = "gesture")) as [->|Hg].
    + rewrite bool_decide_eq_true_2 by done. unfold getitem.
      destruct ((("gesture" : string) :: toks) !! 4) as [t4|] eqn:H4.
      * rewrite bind_Ok. pose proof (lookup_lt_Some _ _ _ H4) as Hlen4.
        destruct (decide (t4 = "xdotool")) as [->|Hx].
        -- rewrite bool_decide_eq_true_2 by done.
           destruct ((("gesture" : string) :: toks) !! 5) as [t5|] eqn:H5.
           ++ rewrite bind_Ok. pose proof (lookup_lt_Some _ _ _ H5) as Hlen5.
              split; [by repeat case_match|].
              intros (_&_&_&[?|(_&[?|[_ ?]])]); [done|lia..].
           ++ rewrite bind_Raise. apply lookup_ge_None_1 in H5.
              split; [|by intros [-> _]]. intros [= <-].
              repeat (split; [done|]). right. split; [done|]. right.
              split; [done|]. lia.
        -- rewrite (bool_decide_eq_false_2 (t4 = "xdotool")) by done.
           split.
           ++ unfold getitem_last. cbn [last].
              destruct (contains "qdbus" t4); [|done].
              destruct (last (("gesture" : string) :: toks)) eqn:Hl;
                [rewrite bind_Ok; by case_match|].
              by apply last_None in Hl.
           ++ intros (_&_&_&[?|(_&[?|[? _]])]); [done|lia|congruence].
      * rewrite bind_Raise. apply lookup_ge_None_1 in H4.
        split; [|by intros [-> _]]. intros [= <-].
        repeat (split; [done|]). right. split; [done|]. left. lia.
    + rewrite (bool_decide_eq_false_2 (kw = "gesture")) by done.
      split; [by case_bool_decide|].
      intros (_&_&_&[?|([= ?]&_)]); done.
  - unfold fix_config_body. rewrite Hhash, (bool_decide_eq_false_2 _ Hlf).
    cbn [orb]. cbv zeta. rewrite split_replace_tab, Hsplit.
    unfold getitem. cbn [lookup list_lookup]. rewrite bind_Ok.
    rewrite (bool_decide_eq_false_2 _ Hin).
    split; [done|]. intros (_&_&_&[?|([= ->]&_)]); [done|].
    destruct Hin. set_solver.
Qed.

(** The loop raises exactly when one of the lines makes the body raise. *)
Lemma fix_config_loop_raises_iff conf fixed_conf e :
  fix_config_loop conf fixed_conf = Raise e ↔
  e = IndexError ∧ ∃ line, line ∈ conf ∧ fix_config_fails line.
Proof.
  revert fixed_conf. induction conf as [|line conf IH]; intros fixed_conf.
  - split; [done|]. intros (_ & line & Hin & _). by inversion Hin.
  - cbn [fix_config_loop].
    destruct (fix_config_body line fixed_conf) as [acc|e0] eqn:Hbody.
    + rewrite bind_Ok, IH. split.
      * intros (-> & l & Hin & Hl). split; [done|]. exists l.
        split; [by right|done].
      * intros (-> & l & Hin & Hl). split; [done|].
        apply elem_of_cons in Hin as [->|Hin]; [|by exists l].
        assert (Hr : fix_config_body line fixed_conf = Raise IndexError)
          by by apply fix_config_body_raises_iff.
        by rewrite Hr in Hbody.
    + rewrite bind_Raise.
      apply fix_config_body_raises_iff in Hbody as [-> Hfail].
      split; [intros [= <-]|by intros [-> _]].
      split; [done|]. exists line. split; [by left|done].
Qed.
End FixConfigErrors.

(** [fix_config] raises exactly when some line of the file is neither a
    comment nor the bare line feed and has no token at all, or is a [gesture]
    line with fewer than five tokens, or with [xdotool] as its fifth and last
    token; the exception is then [IndexError] and nothing is written. *)
Theorem fix_config_raises_iff (st : store) (e : exception) :
  fix_config st = Raise e ↔
  e = IndexError ∧ ∃ line, line ∈ read_config st ∧ fix_config_fails line.
Proof.
  rewrite <-fix_config_loop_raises_iff with (fixed_conf := []).
  unfold fix_config.
  destruct (fix_config_loop (read_config st) []);
    [rewrite bind_Ok; by split|rewrite bind_Raise; split; by intros [= ->]].
Qed.

(** ** [fix_config] on its own output *)

Section FixConfigAgain.
Implicit Types (line : string) (conf fixed_conf : list string).

Lemma fix_config_loop_all_kept conf fixed_conf :
  Forall (fun line => fix_config_keeps line = true) conf →
  fix_config_loop conf fixed_conf = Ok (fixed_conf ++ conf).
Proof.
  intros Hall. revert fixed_conf.
  induction Hall as [|line conf Hline Hconf IH]; intros fixed_conf.
  - by rewrite app_nil_r.
  - cbn [fix_config_loop].
    apply (fix_config_keeps_true line fixed_conf) in Hline as ->.
    rewrite bind_Ok, IH. by rewrite <-app_assoc.
Qed.

Lemma fix_config_written (st st' : store) :
  fix_config st = Ok st' →
  st' = write_config
          (filter (fun line => fix_config_keeps line = true) (read_config st)).
Proof.
  unfold fix_config. intros Hfix.
  destruct (fix_config_loop (read_config st) []) as [fixed_conf|e] eqn:Hloop;
    [|done].
  rewrite bind_Ok in Hfix. injection Hfix as <-.
  apply fix_config_loop_filter in Hloop as ->.
  by rewrite app_nil_l, write_config_iter.
Qed.
End FixConfigAgain.

(** A file that [fix_config] has written goes through [fix_config] again
    without an exception and without a change. *)
Theorem fix_config_idempotent (st st' : store)
    (Hfix : fix_config st = Ok st') :
  fix_config st' = Ok st'.
Proof.
  pose proof (fix_config_read_back st st' Hfix) as Hread.
  apply fix_config_written in Hfix as Hst'.
  unfold fix_config. rewrite Hread.
  rewrite fix_config_loop_all_kept.
  - rewrite bind_Ok, app_nil_l, write_config_iter. by rewrite Hst'.
  - apply Forall_forall. by intros line [? _]%list_elem_of_filter.
Qed.

Lemma fix_config_idempotent_witness :
  let st :=
    Some ("gesture swipe up 3 xdotool key super+Up" +:+ chr LF +:+
          "gesture swipe up 3 xdotool key" +:+ chr LF +:+
          "some noise" +:+ chr LF +:+
          "device all") in
  let st' :=
    Some ("gesture swipe up 3 xdotool key super+Up" +:+ chr LF +:+
          "device all") in
  fix_config st = Ok st' ∧ fix_config st' = Ok st'.
Proof.
  intros st st'.
  assert (Hfix : fix_config st = Ok st') by reflexivity.
  split; [exact Hfix|]. exact (fix_config_idempotent st st' Hfix).
Defined.

(** When [fix_config] completes, the file it writes is the concatenation of
    the lines its loop body appends, and reading that file again gives these
    lines: every line of the old file that passes the tests is there, in
    place, as often as it was, and no other. *)
Theorem fix_config_keeps_exactly (st st' : store)
    (Hfix : fix_config st = Ok st') :
  st' = write_config
          (filter (fun line => fix_config_keeps line = true) (read_config st))
  ∧ read_config st'
    = filter (fun line => fix_config_keeps line = true) (read_config st).
Proof.
  split; [by apply fix_config_written|by apply fix_config_read_back].
Qed.

Lemma fix_config_keeps_exactly_witness :
  let st :=
    Some ("device all" +:+ chr LF +:+ "device all" +:+ chr LF +:+
          "noise" +:+ chr LF +:+ "device all") in
  read_config (Some ("device all" +:+ chr LF +:+ "device all" +:+ chr LF +:+
                     "device all"))
  = filter (fun line => fix_config_keeps line = true) (read_config st).
Proof.
  intros st.
  exact (proj2 (fix_config_keeps_exactly st _ eq_refl)).
Defined.

(** ** [delete_entry] and [save_changes] on the file *)

Section ReadBack.
Implicit Types (line key action shortcut : string) (conf : list string)
  (st : store).

Lemma occurs_string_of_uint (c : ascii) (d : Decimal.uint) :
  is_digit c = false → occurs c (NilEmpty.string_of_uint d) = false.
Proof.
  intros Hc. induction d as [|d IH|d IH|d IH|d IH|d IH|d IH|d IH|d IH|d IH|d IH];
    [done|cbn [NilEmpty.string_of_uint occurs]; rewrite IH, orb_false_r;
          apply bool_decide_eq_false_2; by intros <-..].
Qed.

(** [str(n)] is made of decimal digits and the minus sign. *)
Lemma occurs_str (c : ascii) (n : Z) :
  is_digit c = false → c ≠ "-"%char → occurs c (str n) = false.
Proof.
  intros Hc Hminus. unfold str, NilZero.string_of_int, NilZero.string_of_uint.
  assert (Hzero : occurs c "0" = false).
  { cbn. rewrite orb_false_r. apply bool_decide_eq_false_2. by intros <-. }
  destruct (Z.to_int n) as [d|d]; cbn [occurs];
    rewrite ?(bool_decide_eq_false_2 ("-"%char = c)) by done; cbn [orb];
    destruct d; try done; by apply occurs_string_of_uint.
Qed.

Lemma endswith_occurs (c : ascii) (l : string) :
  endswith (chr c) l = true → occurs c l = true.
Proof.
  induction l as [|a l IH]; [done|]. cbn [endswith occurs].
  intros [Heq%bool_decide_eq_true_1|Hl]%orb_true_iff.
  - injection Heq as -> ->. by rewrite bool_decide_eq_true_2.
  - by rewrite IH, orb_true_r.
Qed.

Lemma endswith_app_chr (c : ascii) (body : string) :
  endswith (chr c) (body +:+ chr c) = true.
Proof.
  induction body as [|a body IH].
  - rewrite app_str_nil_l. cbn. by rewrite bool_decide_eq_true_2.
  - rewrite app_str_cons. cbn [endswith]. by rewrite IH, orb_true_r.
Qed.

Lemma terminated_lines_Forall conf :
  line_sequence conf → terminated_lines conf = true → Forall terminated conf.
Proof.
  unfold terminated_lines.
  induction conf as [|l conf IH]; [constructor|]. cbn [forallb].
  intros [[Hl|[[_ Hlf] _]] Hconf] [Hend Hall]%andb_true_iff.
  - constructor; [done|by apply IH].
  - apply endswith_occurs in Hend. by rewrite Hlf in Hend.
Qed.

Lemma Forall_terminated_lines conf :
  Forall terminated conf → terminated_lines conf = true.
Proof.
  unfold terminated_lines.
  induction 1 as [|l conf (body & -> & _) _ IH]; [done|].
  cbn [forallb]. by rewrite endswith_app_chr, IH.
Qed.

Lemma line_sequence_snoc conf line :
  Forall terminated conf → terminated line ∨ unterminated line →
  line_sequence (conf ++ [line]).
Proof.
  intros Hconf Hline. induction Hconf as [|l conf Hl _ IH]; cbn.
  - split; [|done]. destruct Hline; [by left|by right].
  - split; [by left|done].
Qed.

Lemma Forall_filter_of {A} (P Q : A → Prop) `{!∀ x, Decision (Q x)}
    (l : list A) :
  Forall P l → Forall P (filter Q l).
Proof. apply Forall_sublist_of, sublist_filter. Qed.

Lemma new_line_terminated action (nfingers : Z) shortcut :
  occurs LF action = false → occurs LF shortcut = false →
  terminated (new_line action nfingers shortcut).
Proof.
  intros Ha Hs. exists (action +:+ " " +:+ str nfingers +:+ " " +:+ shortcut).
  split; [unfold new_line; by rewrite !app_str_assoc|].
  rewrite !occurs_app, Ha, Hs. by rewrite occurs_str.
Qed.

Lemma new_line_no_cr action (nfingers : Z) shortcut :
  occurs CR action = false → occurs CR shortcut = false →
  occurs CR (new_line action nfingers shortcut) = false.
Proof.
  intros Ha Hs. unfold new_line.
  rewrite !occurs_app, Ha, Hs. by rewrite occurs_str.
Qed.
End ReadBack.

Section FileLevel.
Implicit Types (line key action shortcut : string) (conf : list string)
  (st : store).

Lemma one_line_spec (s : string) :
  one_line s = true ↔ occurs LF s = false ∧ occurs CR s = false.
Proof.
  unfold one_line. rewrite andb_true_iff, !negb_true_iff. tauto.
Qed.

Lemma filter_not_keyed_twice key conf :
  filter (fun line => startswith key line = false)
    (filter (fun line => startswith key line = false) conf)
  = filter (fun line => startswith key line = false) conf.
Proof.
  induction conf as [|line conf IH]; [done|].
  rewrite filter_cons. case_decide as Hline; [|done].
  rewrite filter_cons, decide_True by done. by rewrite IH.
Qed.

Lemma filter_not_keyed_new_line action (nfingers : Z) shortcut :
  filter (fun line => startswith (action +:+ " " +:+ str nfingers) line = false)
    [new_line action nfingers shortcut] = [].
Proof.
  rewrite filter_cons, decide_False; [done|].
  by rewrite new_line_key, startswith_app.
Qed.

(** All the lines before the last one end with a line feed. *)
Lemma line_sequence_init conf line :
  line_sequence (conf ++ [line]) → Forall terminated conf.
Proof.
  induction conf as [|l conf IH]; [constructor|].
  rewrite <-app_comm_cons. intros [[Hl|[_ Hnil]] Hrest].
  - constructor; [done|by apply IH].
  - by destruct conf.
Qed.

Lemma save_changes_new_conf_read_back action (nfingers : Z) shortcut st :
  terminated_lines (read_config st) = true →
  one_line action = true → one_line shortcut = true →
  read_config
    (write_config
       (save_changes_new_conf action nfingers shortcut (read_config st)))
  = save_changes_new_conf action nfingers shortcut (read_config st).
Proof.
  intros Hterm [Ha_lf Ha_cr]%one_line_spec [Hs_lf Hs_cr]%one_line_spec.
  unfold save_changes_new_conf. rewrite drop_matching_filter.
  apply read_write_config.
  - apply line_sequence_snoc; [|left; by apply new_line_terminated].
    apply Forall_filter_of, terminated_lines_Forall;
      [apply read_config_line_sequence|done].
  - apply Forall_app. split; [apply Forall_filter_of, read_config_no_cr|].
    constructor; [by apply new_line_no_cr|constructor].
Qed.

Lemma read_config_delete_entry (name : string) st :
  read_config (delete_entry name st)
  = filter (fun line => startswith name line = false) (read_config st).
Proof.
  unfold delete_entry. rewrite drop_matching_filter.
  apply (read_write_sublist st), sublist_filter.
Qed.

Lemma read_config_save_changes action (nfingers : Z) shortcut st :
  action ≠ EmptyString → nfingers ≠ 0%Z → shortcut ≠ EmptyString →
  terminated_lines (read_config st) = true →
  one_line action = true → one_line shortcut = true →
  read_config (save_changes action nfingers shortcut st)
  = filter (fun line => startswith (action +:+ " " +:+ str nfingers) line = false)
      (read_config st)
    ++ [new_line action nfingers shortcut].
Proof.
  intros. rewrite save_changes_writes by done.
  rewrite save_changes_new_conf_read_back by done.
  unfold save_changes_new_conf. by rewrite drop_matching_filter.
Qed.
End FileLevel.

(** The file after [delete_entry], read again, holds the lines of the file
    before that do not start with the name, in their order; this needs no
    assumption on the file. *)
Theorem delete_entry_read_back (name : string) (st : store) :
  read_config (delete_entry name st)
  = filter (fun line => startswith name line = false) (read_config st).
Proof. apply read_config_delete_entry. Qed.

(** Deleting the same name a second time changes nothing. *)
Theorem delete_entry_idempotent (name : string) (st : store) :
  delete_entry name (delete_entry name st) = delete_entry name st.
Proof.
  unfold delete_entry at 1. rewrite read_config_delete_entry.
  rewrite drop_matching_filter, filter_not_keyed_twice.
  unfold delete_entry. by rewrite drop_matching_filter.
Qed.

(** When every line of the file ends with a line feed and neither the action
    nor the payload holds a line break, the file after [save_changes], read
    again, is the lines that do not start with the key followed by the new
    line. *)
Theorem save_changes_read_back
    (action : string) (nfingers : Z) (shortcut : string) (st : store)
    (Haction : action ≠ EmptyString) (Hfingers : nfingers ≠ 0%Z)
    (Hshortcut : shortcut ≠ EmptyString)
    (Hfile : terminated_lines (read_config st) = true)
    (Haction1 : one_line action = true) (Hshortcut1 : one_line shortcut = true) :
  read_config (save_changes action nfingers shortcut st)
  = filter (fun line => startswith (action +:+ " " +:+ str nfingers) line = false)
      (read_config st)
    ++ [new_line action nfingers shortcut].
Proof. by apply read_config_save_changes. Qed.

Lemma save_changes_read_back_witness :
  read_config
    (save_changes "gesture swipe up" 3 "xdotool key super+Up"
       (Some ("# gestures" +:+ chr LF +:+
              "gesture swipe up 3 echo old" +:+ chr LF)))
  = ["# gestures" +:+ chr LF;
     "gesture swipe up 3 xdotool key super+Up" +:+ chr LF].
Proof.
  exact (save_changes_read_back "gesture swipe up" 3 "xdotool key super+Up"
           (Some ("# gestures" +:+ chr LF +:+
                  "gesture swipe up 3 echo old" +:+ chr LF))
           ltac:(discriminate) ltac:(discriminate) ltac:(discriminate)
           eq_refl eq_refl eq_refl).
Defined.

(** When the last line of the file does not end with a line feed and does
    not start with the key, [save_changes] glues the new line to it: read
    again, the file ends with one line made of both, and no line of the file
    is the new binding. *)
Theorem save_changes_glues_last_line
    (action : string) (nfingers : Z) (shortcut : string) (st : store)
    (conf : list string) (line : string)
    (Haction : action ≠ EmptyString) (Hfingers : nfingers ≠ 0%Z)
    (Hshortcut : shortcut ≠ EmptyString)
    (Hfile : read_config st = conf ++ [line])
    (Hlast : endswith (chr LF) line = false)
    (Hother : startswith (action +:+ " " +:+ str nfingers) line = false)
    (Haction1 : one_line action = true) (Hshortcut1 : one_line shortcut = true) :
  read_config (save_changes action nfingers shortcut st)
  = filter (fun l => startswith (action +:+ " " +:+ str nfingers) l = false) conf
    ++ [line +:+ new_line action nfingers shortcut].
Proof.
  apply one_line_spec in Haction1 as [Ha_lf Ha_cr].
  apply one_line_spec in Hshortcut1 as [Hs_lf Hs_cr].
  pose proof (read_config_line_sequence st) as Hseq.
  pose proof (read_config_no_cr st) as Hcr.
  rewrite Hfile in Hseq, Hcr.
  apply Forall_app in Hcr as [Hcr_conf Hcr_line].
  inversion_clear Hcr_line as [|? ? Hcr_l _].
  assert (Hun : unterminated line).
  { clear -Hseq Hlast. induction conf as [|l conf IH].
    - destruct Hseq as [[(body & -> & _)|[Hun _]] _]; [|done].
      by rewrite endswith_app_chr in Hlast.
    - apply IH. by destruct Hseq as [_ Hrest]. }
  rewrite save_changes_writes by done.
  unfold save_changes_new_conf. rewrite drop_matching_filter, Hfile.
  rewrite filter_app, filter_cons, decide_True, filter_nil by done.
  set (kept := filter _ conf).
  assert (Hjoin :
    write_config ((kept ++ [line]) ++ [new_line action nfingers shortcut])
    = write_config (kept ++ [line +:+ new_line action nfingers shortcut])).
  { unfold write_config. f_equal. rewrite !join_empty_app.
    by rewrite app_str_assoc. }
  rewrite Hjoin. apply read_write_config.
  - apply line_sequence_snoc.
    + apply Forall_filter_of. by apply (line_sequence_init conf line).
    + left. destruct Hun as [_ Hlf].
      destruct (new_line_terminated action nfingers shortcut Ha_lf Hs_lf)
        as (body & -> & Hbody).
      exists (line +:+ body). split; [by rewrite app_str_assoc|].
      by rewrite occurs_app, Hlf, Hbody.
  - apply Forall_app. split; [by apply Forall_filter_of|].
    constructor; [|constructor].
    by rewrite occurs_app, Hcr_l, new_line_no_cr.
Qed.

Lemma save_changes_glues_last_line_witness :
  read_config
    (save_changes "gesture swipe up" 3 "xdotool key super+Up"
       (Some ("# gestures" +:+ chr LF +:+ "device all")))
  = ["# gestures" +:+ chr LF;
     "device allgesture swipe up 3 xdotool key super+Up" +:+ chr LF].
Proof.
  exact (save_changes_glues_last_line "gesture swipe up" 3
           "xdotool key super+Up"
           (Some ("# gestures" +:+ chr LF +:+ "device all"))
           ["# gestures" +:+ chr LF] "device all"
           ltac:(discriminate) ltac:(discriminate) ltac:(discriminate)
           eq_refl eq_refl eq_refl eq_refl eq_refl).
Defined.

(** [save_changes] after a [delete_entry] of the same key is [save_changes]
    alone: the lines the deletion took away are those the saving drops. *)
Theorem save_changes_after_delete_entry
    (action : string) (nfingers : Z) (shortcut : string) (st : store) :
  save_changes action nfingers shortcut
    (delete_entry (action +:+ " " +:+ str nfingers) st)
  = (if truthy action && negb (nfingers =? 0)%Z && truthy shortcut
     then save_changes action nfingers shortcut st
     else delete_entry (action +:+ " " +:+ str nfingers) st).
Proof.
  unfold save_changes.
  destruct (truthy action && negb (nfingers =? 0)%Z && truthy shortcut); [|done].
  rewrite read_config_delete_entry. unfold save_changes_new_conf.
  by rewrite !drop_matching_filter, filter_not_keyed_twice.
Qed.

(** With every line of the file ended by a line feed and no line break in the
    action and the payloads, saving a second payload under the same key gives
    the file that saving it at once would have given: the first payload
    leaves no trace. *)
Theorem save_changes_overwrites
    (action : string) (nfingers : Z) (shortcut1 shortcut2 : string) (st : store)
    (Haction : action ≠ EmptyString) (Hfingers : nfingers ≠ 0%Z)
    (Hshortcut1 : shortcut1 ≠ EmptyString) (Hshortcut2 : shortcut2 ≠ EmptyString)
    (Hfile : terminated_lines (read_config st) = true)
    (Haction1 : one_line action = true)
    (Hline1 : one_line shortcut1 = true) :
  save_changes action nfingers shortcut2
    (save_changes action nfingers shortcut1 st)
  = save_changes action nfingers shortcut2 st.
Proof.
  rewrite (save_changes_writes action nfingers shortcut2) by done.
  rewrite read_config_save_changes by done.
  rewrite (save_changes_writes action nfingers shortcut2 st) by done.
  unfold save_changes_new_conf. rewrite !drop_matching_filter.
  rewrite filter_app, filter_not_keyed_twice, filter_not_keyed_new_line.
  by rewrite app_nil_r.
Qed.

Lemma save_changes_overwrites_witness :
  let st := Some ("# gestures" +:+ chr LF +:+
                  "gesture pinch in 2 echo in" +:+ chr LF) in
  save_changes "gesture swipe up" 3 "xdotool key ctrl+Up"
    (save_changes "gesture swipe up" 3 "xdotool key super+Up" st)
  = save_changes "gesture swipe up" 3 "xdotool key ctrl+Up" st.
Proof.
  intros st.
  exact (save_changes_overwrites "gesture swipe up" 3
           "xdotool key super+Up" "xdotool key ctrl+Up" st
           ltac:(discriminate) ltac:(discriminate) ltac:(discriminate)
           ltac:(discriminate) eq_refl eq_refl eq_refl).
Defined.

(** Under the same assumptions, deleting the key that was just saved leaves
    the file as deleting it from the first file does: the saved line goes,
    and so does every older line with that prefix. *)
Theorem delete_entry_after_save_changes
    (action : string) (nfingers : Z) (shortcut : string) (st : store)
    (Haction : action ≠ EmptyString) (Hfingers : nfingers ≠ 0%Z)
    (Hshortcut : shortcut ≠ EmptyString)
    (Hfile : terminated_lines (read_config st) = true)
    (Haction1 : one_line action = true) (Hshortcut1 : one_line shortcut = true) :
  delete_entry (action +:+ " " +:+ str nfingers)
    (save_changes action nfingers shortcut st)
  = delete_entry (action +:+ " " +:+ str nfingers) st.
Proof.
  unfold delete_entry. rewrite read_config_save_changes by done.
  rewrite !drop_matching_filter.
  rewrite filter_app, filter_not_keyed_twice, filter_not_keyed_new_line.
  by rewrite app_nil_r.
Qed.

Lemma delete_entry_after_save_changes_witness :
  let st := Some ("gesture swipe up 3 echo old" +:+ chr LF +:+
                  "gesture pinch in 2 echo in" +:+ chr LF) in
  delete_entry "gesture swipe up 3"
    (save_changes "gesture swipe up" 3 "xdotool key super+Up" st)
  = Some ("gesture pinch in 2 echo in" +:+ chr LF).
Proof.
  intros st.
  exact (delete_entry_after_save_changes "gesture swipe up" 3
           "xdotool key super+Up" st
           ltac:(discriminate) ltac:(discriminate) ltac:(discriminate)
           eq_refl eq_refl eq_refl).
Defined.

(** ** [resub_config] keeps the lines and their tokens *)

Section ResubTokens.
Implicit Types (s cur : string) (a c r : ascii).

Lemma split_go_space cur c s :
  isspace c = true →
  split_go cur (String c s)
  = (if truthy cur then [cur] else []) ++ split_go EmptyString s.
Proof. intros Hc. cbn [split_go]. rewrite Hc. by destruct (truthy cur). Qed.

(** Replacing runs of a white space character by one white space character
    does not change the tokens. *)
Lemma split_go_re_sub_plus c r cur s :
  isspace c = true → isspace r = true →
  split_go cur (re_sub_plus c (String r EmptyString) s) = split_go cur s.
Proof.
  intros Hc Hr. revert cur. induction s as [|a s IH]; intros cur; [done|].
  cbn [re_sub_plus]. destruct (decide (a = c)) as [->|Hac].
  - rewrite bool_decide_eq_true_2 by done. destruct s as [|b s'].
    + by rewrite !split_go_space.
    + destruct (decide (b = c)) as [->|Hbc].
      * rewrite bool_decide_eq_true_2 by done. rewrite IH.
        rewrite !split_go_space by done. by destruct (truthy cur).
      * rewrite (bool_decide_eq_false_2 (b = c)) by done.
        rewrite app_str_cons, app_str_nil_l.
        rewrite !split_go_space by done. by rewrite IH.
  - rewrite (bool_decide_eq_false_2 (a = c)) by done.
    cbn [split_go]. by rewrite !IH.
Qed.

Lemma split_resub s : split (resub s) = split s.
Proof.
  unfold split, resub.
  rewrite split_go_re_sub_plus by done.
  rewrite split_go_replace_tab. by rewrite split_go_re_sub_plus.
Qed.

(** The first line of [readlines] begins with the first character of the
    text, when that is no line feed. *)
Lemma readlines_head a s :
  a ≠ LF → ∃ t ts, readlines (String a s) = String a t :: ts.
Proof.
  intros Ha. cbn [readlines]. rewrite (bool_decide_eq_false_2 (a = LF)) by done.
  destruct (readlines s) as [|t ts]; cbn [cons_head]; eauto.
Qed.

Lemma re_sub_plus_cons_other c (t : string) a s :
  a ≠ c → re_sub_plus c t (String a s) = String a (re_sub_plus c t s).
Proof.
  intros Ha. cbn [re_sub_plus]. by rewrite (bool_decide_eq_false_2 (a = c)).
Qed.

Lemma re_sub_plus_cons_run c (t : string) s :
  re_sub_plus c t (String c (String c s)) = re_sub_plus c t (String c s).
Proof.
  change (re_sub_plus c t (String c (String c s))) with
    (if bool_decide (c = c) then
       if bool_decide (c = c) then re_sub_plus c t (String c s)
       else t +:+ re_sub_plus c t (String c s)
     else String c (re_sub_plus c t (String c s))).
  by rewrite !bool_decide_eq_true_2.
Qed.

Lemma re_sub_plus_cons_end c (t : string) b s :
  b ≠ c →
  re_sub_plus c t (String c (String b s)) = t +:+ re_sub_plus c t (String b s).
Proof.
  intros Hb.
  change (re_sub_plus c t (String c (String b s))) with
    (if bool_decide (c = c) then
       if bool_decide (b = c) then re_sub_plus c t (String b s)
       else t +:+ re_sub_plus c t (String b s)
     else String c (re_sub_plus c t (String b s))).
  by rewrite bool_decide_eq_true_2, (bool_decide_eq_false_2 (b = c)).
Qed.

(** The runs do not cross a line feed: the substitution works line by line. *)
Lemma readlines_re_sub_plus c r s :
  c ≠ LF → r ≠ LF →
  readlines (re_sub_plus c (String r EmptyString) s)
  = re_sub_plus c (String r EmptyString) <$> readlines s.
Proof.
  intros Hc Hr. induction s as [|a s IH]; [done|].
  destruct (decide (a = c)) as [->|Hac].
  - cbn [re_sub_plus]. rewrite bool_decide_eq_true_2 by done.
    destruct s as [|b s'].
    + cbn. rewrite (bool_decide_eq_false_2 (r = LF)),
        (bool_decide_eq_false_2 (c = LF)) by done.
      cbn. by rewrite bool_decide_eq_true_2.
    + destruct (decide (b = c)) as [->|Hbc].
      * rewrite bool_decide_eq_true_2 by done. rewrite IH.
        destruct (readlines_head c s' Hc) as (t & ts & Hhead).
        cbn [readlines] in Hhead |- *.
        rewrite (bool_decide_eq_false_2 (c = LF)) in Hhead |- * by done.
        rewrite Hhead. cbn [cons_head fmap list_fmap].
        f_equal. by rewrite re_sub_plus_cons_run.
      * rewrite (bool_decide_eq_false_2 (b = c)) by done.
        rewrite app_str_cons, app_str_nil_l.
        change (readlines (String r ?x)) with
          (if bool_decide (r = LF) then chr LF :: readlines x
           else cons_head r (readlines x)).
        rewrite (bool_decide_eq_false_2 (r = LF)) by done. rewrite IH.
        change (readlines (String c ?x)) with
          (if bool_decide (c = LF) then chr LF :: readlines x
           else cons_head c (readlines x)).
        rewrite (bool_decide_eq_false_2 (c = LF)) by done.
        assert (Hhead : ∃ t ts, readlines (String b s') = String b t :: ts).
        { destruct (decide (b = LF)) as [->|Hb]; [|by apply readlines_head].
          cbn [readlines]. rewrite bool_decide_eq_true_2 by done.
          by eexists _, _. }
        destruct Hhead as (t & ts & ->). cbn [cons_head fmap list_fmap].
        f_equal. rewrite re_sub_plus_cons_end by done.
        by rewrite app_str_cons, app_str_nil_l.
  - rewrite re_sub_plus_cons_other by done. cbn [readlines].
    destruct (decide (a = LF)) as [->|Ha].
    + rewrite bool_decide_eq_true_2 by done. rewrite IH.
      cbn [fmap list_fmap]. f_equal.
      cbn. by rewrite (bool_decide_eq_false_2 (LF = c)).
    + rewrite (bool_decide_eq_false_2 (a = LF)) by done. rewrite IH.
      destruct (readlines s) as [|t ts]; cbn [cons_head fmap list_fmap].
      * cbn. by rewrite (bool_decide_eq_false_2 (a = c)).
      * by rewrite re_sub_plus_cons_other.
Qed.

Lemma readlines_replace c r s :
  c ≠ LF → r ≠ LF →
  readlines (replace c (String r EmptyString) s)
  = replace c (String r EmptyString) <$> readlines s.
Proof.
  intros Hc Hr. induction s as [|a s IH]; [done|].
  cbn [replace]. destruct (decide (a = c)) as [->|Hac].
  - rewrite bool_decide_eq_true_2 by done.
    rewrite app_str_cons, app_str_nil_l. cbn [readlines].
    rewrite (bool_decide_eq_false_2 (r = LF)),
      (bool_decide_eq_false_2 (c = LF)) by done.
    rewrite IH. destruct (readlines s) as [|t ts]; cbn [cons_head fmap list_fmap].
    + cbn. by rewrite bool_decide_eq_true_2.
    + cbn [replace]. rewrite bool_decide_eq_true_2 by done.
      by rewrite app_str_cons, app_str_nil_l.
  - rewrite (bool_decide_eq_false_2 (a = c)) by done. cbn [readlines].
    destruct (decide (a = LF)) as [->|Ha].
    + rewrite bool_decide_eq_true_2 by done. rewrite IH.
      cbn [fmap list_fmap]. f_equal.
      cbn. by rewrite (bool_decide_eq_false_2 (LF = c)).
    + rewrite (bool_decide_eq_false_2 (a = LF)) by done. rewrite IH.
      destruct (readlines s) as [|t ts]; cbn [cons_head fmap list_fmap].
      * cbn. by rewrite (bool_decide_eq_false_2 (a = c)).
      * cbn [replace]. by rewrite (bool_decide_eq_false_2 (a = c)).
Qed.

Lemma readlines_resub s : readlines (resub s) = resub <$> readlines s.
Proof.
  unfold resub.
  rewrite readlines_re_sub_plus, readlines_replace, readlines_re_sub_plus
    by done.
  rewrite <-!list_fmap_compose. done.
Qed.

Lemma read_config_resub_config (st : store) :
  read_config (resub_config st) = resub <$> read_config st.
Proof.
  rewrite resub_config_text. cbn [read_config].
  rewrite universal_newlines_id by (apply resub_no_cr, decoded_no_cr).
  rewrite readlines_resub. by destruct st.
Qed.
End ResubTokens.

(** [resub_config] keeps the lines of the file apart and in order, and
    changes no token of any of them: line by line, the file read again has
    the tokens it had. *)
Theorem resub_config_keeps_tokens (st : store) :
  split <$> read_config (resub_config st) = split <$> read_config st.
Proof.
  rewrite read_config_resub_config, <-list_fmap_compose.
  apply list_fmap_ext. intros _ line _. apply split_resub.
Qed.

(** ** [find_key_combo]: case and chords *)

Section KeyCombo.
Implicit Types (s t segment : string) (c : ascii).

Lemma lower_char_idemp c : lower_char (lower_char c) = lower_char c.
Proof. by destruct c as [[] [] [] [] [] [] [] []]. Qed.

Lemma lower_char_plus c : lower_char c = PLUS ↔ c = PLUS.
Proof. destruct c as [[] [] [] [] [] [] [] []]; by split. Qed.

Lemma lower_idemp s : lower (lower s) = lower s.
Proof.
  induction s as [|a s IH]; [done|]. cbn [lower].
  by rewrite lower_char_idemp, IH.
Qed.

Lemma fmap_cons_head (f : string → string) (g : ascii → ascii) c
    (l : list string) :
  (∀ a u, f (String a u) = String (g a) (f u)) → f EmptyString = EmptyString →
  f <$> cons_head c l = cons_head (g c) (f <$> l).
Proof.
  intros Hf Hnil. destruct l as [|u l]; cbn [cons_head fmap list_fmap].
  - unfold chr. by rewrite Hf, Hnil.
  - by rewrite Hf.
Qed.

(** Lower-casing does not move the plus signs. *)
Lemma split_on_lower s : split_on PLUS (lower s) = lower <$> split_on PLUS s.
Proof.
  induction s as [|a s IH]; [done|]. cbn [lower split_on].
  destruct (decide (a = PLUS)) as [->|Ha].
  - rewrite !bool_decide_eq_true_2 by done. by rewrite IH.
  - rewrite (bool_decide_eq_false_2 (a = PLUS)) by done.
    rewrite (bool_decide_eq_false_2 (lower_char a = PLUS))
      by by rewrite lower_char_plus.
    rewrite IH. symmetry. by apply fmap_cons_head.
Qed.

Lemma translate_segment_lower segment :
  translate_segment (lower segment) = translate_segment segment.
Proof. unfold translate_segment. by rewrite lower_idemp. Qed.

Lemma translate_lower s : translate (lower s) = translate s.
Proof.
  unfold translate. rewrite split_on_lower, <-list_fmap_compose. f_equal.
  apply list_fmap_ext. intros _ segment _. apply translate_segment_lower.
Qed.
End KeyCombo.

(** [find_key_combo] does not look at the case of the key names: two combos
    that differ only in case get the same translation. *)
Theorem find_key_combo_case_insensitive (s t : string)
    (Hcase : lower s = lower t) :
  find_key_combo s = find_key_combo t.
Proof.
  unfold find_key_combo. rewrite !find_key_combo_loop_spec, !bind_Ok.
  rewrite !app_nil_l. change (Ok (translate s) = Ok (translate t)).
  by rewrite <-(translate_lower s), <-(translate_lower t), Hcase.
Qed.

Lemma find_key_combo_case_insensitive_witness :
  find_key_combo "CTRL+META+pgdown" = find_key_combo "ctrl+Meta+PgDown".
Proof.
  exact (find_key_combo_case_insensitive "CTRL+META+pgdown" "ctrl+Meta+PgDown"
           eq_refl).
Defined.

Section Chords.
Implicit Types (s t segment : string) (c : ascii) (segments : list string).

Lemma split_on_none c s : occurs c s = false → split_on c s = [s].
Proof.
  induction s as [|a s IH]; [done|]. cbn [occurs split_on].
  intros [Ha Hs]%orb_false_iff. rewrite Ha, IH by done. done.
Qed.

Lemma split_on_app c s t :
  occurs c s = false → split_on c (s +:+ String c t) = s :: split_on c t.
Proof.
  induction s as [|a s IH].
  - intros _. rewrite app_str_nil_l. cbn [split_on].
    by rewrite bool_decide_eq_true_2.
  - cbn [occurs]. intros [Ha Hs]%orb_false_iff.
    rewrite app_str_cons. cbn [split_on]. rewrite Ha, IH by done. done.
Qed.

Lemma split_on_join c segments :
  segments ≠ [] → Forall (fun x => occurs c x = false) segments →
  split_on c (join (String c EmptyString) segments) = segments.
Proof.
  intros Hne Hall. induction Hall as [|x l Hx Hl IH]; [done|].
  destruct l as [|y l]; [by apply split_on_none|].
  change (join (String c EmptyString) (x :: y :: l)) with
    (x +:+ String c EmptyString +:+ join (String c EmptyString) (y :: l)).
  rewrite (app_str_cons c), app_str_nil_l.
  rewrite split_on_app by done. by rewrite IH.
Qed.

Lemma split_on_segments c s :
  Forall (fun x => occurs c x = false) (split_on c s).
Proof.
  induction s as [|a s IH]; [by repeat constructor|]. cbn [split_on].
  destruct (decide (a = c)) as [->|Ha].
  - rewrite bool_decide_eq_true_2 by done. by constructor.
  - rewrite (bool_decide_eq_false_2 (a = c)) by done.
    destruct (split_on c s) as [|x l]; cbn [cons_head].
    + repeat constructor. cbn. by rewrite (bool_decide_eq_false_2 (a = c)).
    + inversion_clear IH as [|? ? Hx Hl]. constructor; [|done].
      cbn [occurs]. by rewrite (bool_decide_eq_false_2 (a = c)), Hx.
Qed.

Lemma occurs_lower_plus s : occurs PLUS (lower s) = occurs PLUS s.
Proof.
  induction s as [|a s IH]; [done|]. cbn [lower occurs]. rewrite IH. f_equal.
  apply bool_decide_ext, lower_char_plus.
Qed.

Lemma keys_mapping_no_plus (k v : string) :
  keys_mapping !! k = Some v → occurs PLUS v = false.
Proof.
  intros Hin%elem_of_list_to_map_2.
  repeat (apply elem_of_cons in Hin as [[= _ ->]|Hin]; [done|]).
  by inversion Hin.
Qed.

Lemma translate_segment_no_plus segment :
  occurs PLUS segment = false → occurs PLUS (translate_segment segment) = false.
Proof.
  intros Hseg. unfold translate_segment.
  destruct (keys_mapping !! lower segment) as [v|] eqn:Hv; cbn [default].
  - by apply keys_mapping_no_plus in Hv.
  - by rewrite occurs_lower_plus.
Qed.

Lemma split_on_nonempty c s : split_on c s ≠ [].
Proof.
  destruct s as [|a s]; [done|]. cbn [split_on].
  case_bool_decide; [done|]. by destruct (split_on c s).
Qed.
End Chords.

(** The translation keeps the chord as it is: split on [+], the result of
    [find_key_combo] has one key for each key of the input, the translation
    of that key. *)
Theorem find_key_combo_keeps_chord (qt_key_combo : string) :
  ∃ out, find_key_combo qt_key_combo = Ok out
         ∧ split_on PLUS out = translate_segment <$> split_on PLUS qt_key_combo.
Proof.
  exists (translate qt_key_combo). split.
  - unfold find_key_combo. by rewrite find_key_combo_loop_spec, bind_Ok.
  - unfold translate. apply split_on_join.
    + intros Hnil%fmap_nil_inv. by apply split_on_nonempty in Hnil.
    + apply Forall_fmap. eapply Forall_impl; [apply split_on_segments|].
      intros segment. apply translate_segment_no_plus.
Qed.

(** ** [sorted] *)

Section SortedLists.
Context {A : Type} (lt : A → A → bool).
Hypothesis lt_asym : ∀ x y, lt x y = true → lt y x = false.
Implicit Types (x y : A) (l acc : list A).

Let le x y : Prop := lt y x = false.

Lemma insert_sorted_perm x l : insert_sorted lt x l ≡ₚ x :: l.
Proof.
  induction l as [|y l IH]; [done|]. cbn [insert_sorted].
  destruct (lt x y); [done|]. rewrite IH. apply Permutation_swap.
Qed.

Lemma insert_sorted_HdRel x y l :
  HdRel le y l → lt x y = false → HdRel le y (insert_sorted lt x l).
Proof.
  intros Hhd Hxy. destruct l as [|z l]; cbn [insert_sorted].
  - by constructor.
  - inversion_clear Hhd. destruct (lt x z); by constructor.
Qed.

Lemma insert_sorted_Sorted x l :
  Sorted le l → Sorted le (insert_sorted lt x l).
Proof.
  induction 1 as [|y l Hl IH Hhd]; cbn [insert_sorted].
  - by repeat constructor.
  - destruct (lt x y) eqn:Hxy.
    + constructor; [by constructor|]. constructor. by apply lt_asym.
    + constructor; [done|]. by apply insert_sorted_HdRel.
Qed.

Lemma sorted_fold_perm l acc :
  fold_left (fun acc x => insert_sorted lt x acc) l acc ≡ₚ acc ++ l.
Proof.
  revert acc. induction l as [|x l IH]; intros acc; cbn [fold_left].
  - by rewrite app_nil_r.
  - rewrite IH, insert_sorted_perm. simpl. apply Permutation_middle.
Qed.

Lemma sorted_fold_Sorted l acc :
  Sorted le acc →
  Sorted le (fold_left (fun acc x => insert_sorted lt x acc) l acc).
Proof.
  revert acc. induction l as [|x l IH]; intros acc Hacc; [done|].
  cbn [fold_left]. by apply IH, insert_sorted_Sorted.
Qed.

(** [sorted] permutes its argument and puts it in order. *)
Lemma sorted_perm l : sorted lt l ≡ₚ l.
Proof. unfold sorted. by rewrite sorted_fold_perm. Qed.

Lemma sorted_Sorted l : Sorted le (sorted lt l).
Proof. apply sorted_fold_Sorted. constructor. Qed.
End SortedLists.

(** ** [sort_config] *)

Section SortConfig.
Implicit Types (d : display) (r : sort_row) (rs : list sort_row).

Lemma str_lt_asym (s t : string) : str_lt s t = true → str_lt t s = false.
Proof.
  unfold str_lt. rewrite (String.compare_antisym s t).
  by destruct (String.compare t s).
Qed.

Lemma seq_lt_asym (l1 l2 : list string) :
  seq_lt l1 l2 = true → seq_lt l2 l1 = false.
Proof.
  revert l2. induction l1 as [|x l1 IH]; intros [|y l2]; cbn [seq_lt]; try done.
  destruct (decide (x = y)) as [->|Hxy].
  - rewrite !bool_decide_eq_true_2 by done. apply IH.
  - rewrite (bool_decide_eq_false_2 (x = y)),
      (bool_decide_eq_false_2 (y = x)) by done.
    apply str_lt_asym.
Qed.

Lemma row_lt_asym r1 r2 : row_lt r1 r2 = true → row_lt r2 r1 = false.
Proof.
  destruct r1 as [el1 [[[f1 s1] b1] a1]], r2 as [el2 [[[f2 s2] b2] a2]].
  unfold row_lt. destruct (decide (el1 = el2)) as [->|Hel].
  - rewrite !bool_decide_eq_true_2 by done. apply seq_lt_asym.
  - rewrite (bool_decide_eq_false_2 (el1 = el2)),
      (bool_decide_eq_false_2 (el2 = el1)) by done.
    apply str_lt_asym.
Qed.

Lemma rows_length d : balanced d → length (rows d) = length (gestures d).
Proof.
  intros (Hf & Hs & Hb & Ha). unfold rows.
  rewrite !length_zip_with. lia.
Qed.

Lemma rows_lookup d i (el : string) :
  balanced d → gestures d !! i = Some el →
  ∃ f s b a,
    fingers d !! i = Some f ∧ shortcuts d !! i = Some s
    ∧ buttons d !! i = Some b ∧ actions d !! i = Some a
    ∧ rows d !! i = Some (el, (f, s, b, a)).
Proof.
  intros (Hf & Hs & Hb & Ha) Hel.
  pose proof (lookup_lt_Some _ _ _ Hel) as Hi.
  destruct (lookup_lt_is_Some_2 (fingers d) i) as [f Hfi]; [lia|].
  destruct (lookup_lt_is_Some_2 (shortcuts d) i) as [s Hsi]; [lia|].
  destruct (lookup_lt_is_Some_2 (buttons d) i) as [b Hbi]; [lia|].
  destruct (lookup_lt_is_Some_2 (actions d) i) as [a Hai]; [lia|].
  exists f, s, b, a. repeat (split; [done|]).
  unfold rows. rewrite !lookup_zip_with. by rewrite Hel, Hfi, Hsi, Hbi, Hai.
Qed.

(** With lists of one length the first loop of [sort_config] meets no
    missing index and collects the rows. *)
Lemma for_sorting_loop_rows d i (els : list string) (for_sorting : list sort_row) :
  balanced d → els = drop i (gestures d) →
  for_sorting_loop d i els for_sorting = Ok (for_sorting ++ drop i (rows d)).
Proof.
  intros Hbal. revert i for_sorting.
  induction els as [|el els IH]; intros i for_sorting Hels.
  - cbn [for_sorting_loop]. symmetry in Hels.
    apply drop_nil_inv in Hels.
    rewrite drop_ge by (rewrite rows_length by done; lia).
    by rewrite app_nil_r.
  - assert (Hel : gestures d !! i = Some el).
    { rewrite <-(Nat.add_0_r i), <-lookup_drop, <-Hels. done. }
    destruct (rows_lookup d i el Hbal Hel)
      as (f & s & b & a & Hf & Hs & Hb & Ha & Hrow).
    cbn [for_sorting_loop]. unfold getitem.
    rewrite Hf, Hs, Hb, Ha, !bind_Ok.
    rewrite IH.
    + pose proof (drop_S _ _ _ Hrow) as Hdrop.
      rewrite <-app_assoc. cbn [app]. do 2 f_equal. symmetry. exact Hdrop.
    + rewrite (drop_S _ _ _ Hel) in Hels. by injection Hels.
Qed.
End SortConfig.

Section SortConfigRows.
Implicit Types (d : display) (r : sort_row) (rs : list sort_row).

Lemma unpack_row_rows d r :
  balanced d →
  balanced (unpack_row d r) ∧ rows (unpack_row d r) = rows d ++ [r].
Proof.
  intros (Hf & Hs & Hb & Ha).
  destruct r as [el [[[f s] b] a]], d as [gs fs ss bs acs].
  cbn in Hf, Hs, Hb, Ha. split.
  - unfold balanced. cbn. rewrite !length_app. cbn. lia.
  - unfold rows. cbn.
    rewrite !zip_with_app; [done|by rewrite ?length_zip_with; lia..].
Qed.

(** The second loop of [sort_config] lays the rows out in the five lists. *)
Lemma fold_unpack_row_rows rs d :
  balanced d →
  balanced (fold_left unpack_row rs d)
  ∧ rows (fold_left unpack_row rs d) = rows d ++ rs.
Proof.
  revert d. induction rs as [|r rs IH]; intros d Hbal; cbn [fold_left].
  - by rewrite app_nil_r.
  - destruct (unpack_row_rows d r Hbal) as [Hbal' Hrows].
    destruct (IH _ Hbal') as [Hbal'' Hrows'']. split; [done|].
    by rewrite Hrows'', Hrows, <-app_assoc.
Qed.

Lemma sort_config_rows d :
  balanced d →
  sort_config d
  = Ok (fold_left unpack_row (sorted row_lt (rows d)) empty_display).
Proof.
  intros Hbal. unfold sort_config.
  rewrite (for_sorting_loop_rows d 0 (gestures d) []) by done.
  by rewrite bind_Ok.
Qed.
End SortConfigRows.

(** On five lists of one length [sort_config] raises nothing; the lists it
    returns have one length again, their rows are the rows it was given, each
    as often as before, and no row is followed by a smaller one. *)
Theorem sort_config_orders_rows (d : display) (Hbal : balanced d) :
  ∃ d', sort_config d = Ok d'
        ∧ balanced d'
        ∧ rows d' ≡ₚ rows d
        ∧ Sorted row_le (rows d').
Proof.
  eexists. split; [by apply sort_config_rows|].
  destruct (fold_unpack_row_rows (sorted row_lt (rows d)) empty_display)
    as [Hbal' Hrows]; [done|].
  split; [done|]. rewrite Hrows. cbn [rows empty_display app].
  split; [apply sorted_perm|].
  apply sorted_Sorted, row_lt_asym.
Qed.

Lemma sort_config_orders_rows_witness :
  ∃ d', sort_config (Display ["Swipe Up"; "Pinch In"] ["3"; "2"] ["a"; "b"]
                       ["gesture swipe up 3"; "gesture pinch in 2"]
                       ["Command"; "Command"]) = Ok d'
        ∧ Sorted row_le (rows d').
Proof.
  destruct (sort_config_orders_rows
              (Display ["Swipe Up"; "Pinch In"] ["3"; "2"] ["a"; "b"]
                 ["gesture swipe up 3"; "gesture pinch in 2"]
                 ["Command"; "Command"]))
    as (d' & Hsort & _ & _ & Hsorted).
  - by repeat split.
  - by exists d'.
Defined.

(** ** [prepare_config_for_displaying] keeps the five lists together *)

Section PrepareRows.
Implicit Types (line : string) (conf splitted : list string) (d : display).

Lemma decode_action_outcome line splitted d d' :
  decode_action line splitted d = Ok d' →
  ∃ a s, d' = append_shortcut s (append_action a d).
Proof.
  unfold decode_action, mbind, result_bind. intros H.
  repeat case_match; simplify_eq; eauto.
Qed.

(** A line that does not start with [gesture] is passed over; any other line
    that does not raise adds one entry to each list. *)
Lemma prepare_body_outcome line d d' :
  prepare_body line d = Ok d' →
  (startswith "gesture" line = false ∧ d' = d)
  ∨ (startswith "gesture" line = true
     ∧ ∃ l f a s b,
         d' = append_button b (append_shortcut s (append_action a
                (append_finger f (append_gesture l d))))).
Proof.
  unfold prepare_body. destruct (startswith "gesture" line).
  - cbv zeta. intros H. right. split; [done|].
    destruct (getitem (split line) 0) as [s0|]; [rewrite bind_Ok in H|done].
    destruct (getitem (split line) 1) as [s1|]; [rewrite bind_Ok in H|done].
    destruct (getitem (split line) 2) as [s2|]; [rewrite bind_Ok in H|done].
    destruct (dict_getitem reversed_mapping _) as [label|];
      [rewrite bind_Ok in H|done].
    destruct (getitem (split line) 3) as [s3|]; [rewrite bind_Ok in H|done].
    destruct (decode_action line (split line) _) as [d1|] eqn:Hd;
      [rewrite bind_Ok in H|done].
    apply decode_action_outcome in Hd as (a & s & ->).
    injection H as <-. by eexists _, _, _, _, _.
  - intros [= <-]. by left.
Qed.

Lemma prepare_body_balanced line d d' :
  prepare_body line d = Ok d' → balanced d →
  balanced d'
  ∧ length (gestures d')
    = length (gestures d)
      + length (filter (fun l => startswith "gesture" l = true) [line]).
Proof.
  intros [[Hno ->]|[Hyes (l & f & a & s & b & ->)]]%prepare_body_outcome
    (Hf & Hs & Hb & Ha).
  - rewrite filter_cons, decide_False by by rewrite Hno.
    split; [done|]. cbn. lia.
  - rewrite filter_cons, decide_True by done.
    destruct d as [gs fs ss bs acs]. cbn in Hf, Hs, Hb, Ha.
    unfold balanced. cbn. rewrite !length_app. cbn. lia.
Qed.

Lemma prepare_loop_balanced conf d d' :
  prepare_loop conf d = Ok d' → balanced d →
  balanced d'
  ∧ length (gestures d')
    = length (gestures d)
      + length (filter (fun l => startswith "gesture" l = true) conf).
Proof.
  revert d. induction conf as [|line conf IH]; intros d; cbn [prepare_loop].
  - intros [= <-] Hbal. split; [done|]. cbn. lia.
  - destruct (prepare_body line d) as [d1|e] eqn:Hbody; [|done].
    rewrite bind_Ok. intros Hloop Hbal.
    destruct (prepare_body_balanced _ _ _ Hbody Hbal) as [Hbal1 Hlen1].
    destruct (IH _ Hloop Hbal1) as [Hbal' Hlen']. split; [done|].
    rewrite Hlen', Hlen1.
    change (line :: conf) with ([line] ++ conf).
    rewrite filter_app, length_app. lia.
Qed.
End PrepareRows.

(** When [prepare_config_for_displaying] completes, its five lists have one
    length: one entry for each line of the file that starts with [gesture],
    and none for the other lines. *)
Theorem prepare_config_one_row_per_gesture_line (st : store) (d : display)
    (Hprepare : prepare_config_for_displaying st = Ok d) :
  balanced d
  ∧ length (gestures d)
    = length (filter (fun l => startswith "gesture" l = true) (read_config st)).
Proof.
  apply prepare_loop_balanced in Hprepare as [Hbal Hlen]; [|by repeat split].
  split; [done|]. by rewrite Hlen.
Qed.

Lemma prepare_config_one_row_per_gesture_line_witness :
  ∃ d, prepare_config_for_displaying
         (Some ("# gestures" +:+ chr LF +:+
                "gesture swipe up 3 xdotool key super+Up" +:+ chr LF +:+
                "device all" +:+ chr LF +:+
                "gesture pinch in 2 echo pinched" +:+ chr LF)) = Ok d
       ∧ balanced d ∧ length (gestures d) = 2.
Proof.
  set (st := Some _).
  destruct (prepare_config_for_displaying st) as [d|e] eqn:Hprepare;
    [|by vm_compute in Hprepare].
  exists d. split; [done|].
  destruct (prepare_config_one_row_per_gesture_line st d Hprepare)
    as [Hbal Hlen].
  split; [done|]. by rewrite Hlen.
Defined.
